(** * mgnify-pipelines-toolkit: the amplicon consensus engine

    A shallow embedding of
    [mgnify_pipelines_toolkit/analysis/amplicon/amplicon_utils.py]
    ([get_read_count], [build_cons_seq], [build_mcp_cons_dict_list],
    [fetch_mcp]) together with the Python primitives these functions rest
    on: integers and binary64 floats with Python's true division, insertion
    ordered dictionaries, string slicing and stripping, stable sorting and
    exceptions. *)

From Stdlib Require Import ZArith List String Ascii Bool Lia Permutation Sorted.
From Stdlib Require Import Floats.
From Stdlib Require Import DecimalString.
Import ListNotations.

Set Warnings "-inexact-float".

Local Open Scope string_scope.
Local Open Scope list_scope.
Local Open Scope Z_scope.

(** ** Exceptions and fallible computations *)

Inductive exn : Type :=
| ZeroDivisionError
| OverflowError
| KeyError (key : string)
| IndexError
| UnboundLocalError (name : string)
| SystemExit (code : Z).

Inductive result (A : Type) : Type :=
| Ok (a : A)
| Raise (e : exn).

Arguments Ok {A} a.
Arguments Raise {A} e.

Definition bind {A B : Type} (c : result A) (k : A -> result B) : result B :=
  match c with
  | Ok a => k a
  | Raise e => Raise e
  end.

Notation "x <- c ;; k" := (bind c (fun x => k))
  (at level 61, c at next level, right associativity).
Notation "' pat <- c ;; k" := (bind c (fun x => match x with pat => k end))
  (at level 61, pat pattern, c at next level, right associativity).

(** ** Python numbers

    A Python [float] is an IEEE 754 binary64 value; it is modelled by the
    Standard Library's executable specification of binary64
    ([spec_float] at precision 53 and [emax] 1024).  A Python [int] is
    unbounded. *)

Module Py.

Definition float : Type := spec_float.

Inductive number : Type :=
| PyInt (z : Z)
| PyFloat (f : float).

Definition fzero : float := S754_zero false.
Definition fadd : float -> float -> float := SFadd prec emax.
Definition fdiv : float -> float -> float := SFdiv prec emax.
Definition feqb : float -> float -> bool := SFeqb.
Definition fltb : float -> float -> bool := SFltb.
Definition fleb : float -> float -> bool := SFleb.

(** The float written by a decimal literal of the source. *)
Definition lit (f : PrimFloat.float) : float := Prim2SF f.

(** [float(z)]: the nearest binary64 value, ties to even; ints beyond the
    float range raise. *)
Definition float_of_int (z : Z) : result float :=
  match binary_normalize prec emax z 0 false with
  | S754_infinity _ => Raise OverflowError
  | f => Ok f
  end.

(** An integer as an exact (unnormalised) mantissa with exponent 0. *)
Definition exact_int (z : Z) : float :=
  match z with
  | Z0 => S754_zero false
  | Zpos p => S754_finite false p 0
  | Zneg p => S754_finite true p 0
  end.

(** [a / b] on two ints: the correctly rounded quotient. *)
Definition int_truediv (a b : Z) : result float :=
  if b =? 0 then Raise ZeroDivisionError
  else match fdiv (exact_int a) (exact_int b) with
       | S754_infinity _ => Raise OverflowError
       | f => Ok f
       end.

(** [a / b] on two floats. *)
Definition float_truediv (a b : float) : result float :=
  if feqb b fzero then Raise ZeroDivisionError else Ok (fdiv a b).

(** [a / b]: a mixed division first converts the int operand. *)
Definition truediv (a b : number) : result float :=
  match a, b with
  | PyInt x, PyInt y => int_truediv x y
  | PyInt x, PyFloat g => f <- float_of_int x ;; float_truediv f g
  | PyFloat f, PyInt y => g <- float_of_int y ;; float_truediv f g
  | PyFloat f, PyFloat g => float_truediv f g
  end.

(** [x == 0] on a number. *)
Definition is_zero (x : number) : bool :=
  match x with
  | PyInt z => z =? 0
  | PyFloat f => feqb f fzero
  end.

(** [float.is_integer()]. *)
Definition float_is_integer (f : float) : bool :=
  match f with
  | S754_zero _ => true
  | S754_finite _ m e => (0 <=? e) || (Zpos m mod 2 ^ (- e) =? 0)
  | _ => false
  end.

(** ** Dictionaries

    A [dict] keeps its keys in insertion order; it is an association list
    whose keys are pairwise distinct. *)

Definition dict (V : Type) : Type := list (string * V).

Definition wf {V : Type} (d : dict V) : Prop := NoDup (map fst d).

Fixpoint get {V : Type} (d : dict V) (k : string) : option V :=
  match d with
  | [] => None
  | (k', v) :: d' => if String.eqb k' k then Some v else get d' k
  end.

(** [d[k]] *)
Definition getitem {V : Type} (d : dict V) (k : string) : result V :=
  match get d k with
  | Some v => Ok v
  | None => Raise (KeyError k)
  end.

(** [d[k] = v]: an existing key keeps its place, a new key goes last. *)
Fixpoint setitem {V : Type} (d : dict V) (k : string) (v : V) : dict V :=
  match d with
  | [] => [(k, v)]
  | (k', v') :: d' =>
      if String.eqb k' k then (k', v) :: d' else (k', v') :: setitem d' k v
  end.

Definition keys {V : Type} (d : dict V) : list string := map fst d.
Definition values {V : Type} (d : dict V) : list V := map snd d.

(** ** Sequences and strings *)

(** [range(n)] *)
Definition range (n : Z) : list Z := map Z.of_nat (seq 0 (Z.to_nat n)).

(** [len(s)] *)
Definition len (s : string) : Z := Z.of_nat (String.length s).

(** [s[i]], with Python's negative indices. *)
Definition index (s : string) (i : Z) : result string :=
  let j := if i <? 0 then i + len s else i in
  if (j <? 0) || (len s <=? j) then Raise IndexError
  else match String.get (Z.to_nat j) s with
       | Some c => Ok (String c EmptyString)
       | None => Raise IndexError
       end.

(** One bound of a slice, clamped to [[0, n]]. *)
Definition clamp (n i : Z) : Z :=
  let j := if i <? 0 then i + n else i in
  if j <? 0 then 0 else if n <? j then n else j.

(** [s[a:b]] *)
Definition slice (s : string) (a b : Z) : string :=
  let lo := clamp (len s) a in
  let hi := clamp (len s) b in
  String.substring (Z.to_nat lo) (Z.to_nat (hi - lo)) s.

(** [s[::-1]] *)
Definition reversed (s : string) : string :=
  string_of_list_ascii (rev (list_ascii_of_string s)).

(** [sep.join(l)] *)
Definition join (sep : string) (l : list string) : string := String.concat sep l.

(** Stable sort into descending key order, as
    [sorted(l, key=..., reverse=True)] gives it: an element moves in front
    of the elements that follow it unless their key is strictly greater. *)
Section SortDesc.
Context {A K : Type} (key : A -> K) (lt : K -> K -> bool).

Fixpoint insert_desc (x : A) (l : list A) : list A :=
  match l with
  | [] => [x]
  | y :: l' => if lt (key x) (key y) then y :: insert_desc x l' else x :: l
  end.

Fixpoint sorted_desc (l : list A) : list A :=
  match l with
  | [] => []
  | x :: l' => insert_desc x (sorted_desc l')
  end.
End SortDesc.

(** [sorted(l)] on strings: ascending, by code point. *)
Fixpoint insert_str (x : string) (l : list string) : list string :=
  match l with
  | [] => [x]
  | y :: l' => if String.ltb y x then y :: insert_str x l' else x :: l
  end.

Fixpoint sorted_str (l : list string) : list string :=
  match l with
  | [] => []
  | x :: l' => insert_str x (sorted_str l')
  end.

End Py.

Import Py.

(** ** Conservation aggregator: [build_mcp_cons_dict_list] *)

(** [index_base_dict[base] += n] on a [defaultdict(int)]. *)
Definition add_count (d : dict Z) (base : string) (n : Z) : dict Z :=
  setitem d base (match get d base with Some c => c | None => 0 end + n).

(** The inner loop over [mcp_count_dict.keys()] at position [i]. *)
Fixpoint index_base_loop (mcp_count_dict : dict Z) (mcp_len i : Z)
    (mcps : list string) (index_base_dict : dict Z) : result (dict Z) :=
  match mcps with
  | [] => Ok index_base_dict
  | mcp :: rest =>
      if len mcp <? mcp_len
      then index_base_loop mcp_count_dict mcp_len i rest index_base_dict
      else
        base <- index mcp i ;;
        n <- getitem mcp_count_dict mcp ;;
        index_base_loop mcp_count_dict mcp_len i rest
          (add_count index_base_dict base n)
  end.

(** The outer loop over [range(mcp_len)]. *)
Fixpoint positions_loop (mcp_count_dict : dict Z) (mcp_len : Z)
    (positions : list Z) (mcp_cons_list : list (dict Z))
    : result (list (dict Z)) :=
  match positions with
  | [] => Ok mcp_cons_list
  | i :: rest =>
      index_base_dict <-
        index_base_loop mcp_count_dict mcp_len i (keys mcp_count_dict) [] ;;
      positions_loop mcp_count_dict mcp_len rest
        (mcp_cons_list ++ [index_base_dict])
  end.

Definition build_mcp_cons_dict_list (mcp_count_dict : dict Z) (mcp_len : Z)
    : result (list (dict Z)) :=
  positions_loop mcp_count_dict mcp_len (range mcp_len) [].

(** ** Consensus resolver: [build_cons_seq] *)

(** [base in ("A", "T", "C", "G")] *)
Definition is_base (base : string) : bool :=
  String.eqb base "A" || String.eqb base "T"
  || String.eqb base "C" || String.eqb base "G".

(** [counter in do_not_include] *)
Definition in_list (counter : Z) (do_not_include : list Z) : bool :=
  existsb (Z.eqb counter) do_not_include.

(** The loop over [count_dict.items()]: the proportions of the four
    concrete bases and the largest raw count. *)
Fixpoint cons_props (items : dict Z) (read_count : number)
    (max_line_count : option number) (cons_dict : dict float) (max_count : Z)
    : result (dict float * Z) :=
  match items with
  | [] => Ok (cons_dict, max_count)
  | (base, count) :: rest =>
      if negb (is_base base)
      then cons_props rest read_count max_line_count cons_dict max_count
      else
        prop <- match max_line_count with
                | None => truediv (PyInt count) read_count
                | Some m => truediv (PyInt count) m
                end ;;
        cons_props rest read_count max_line_count
          (setitem cons_dict base prop)
          (if max_count <? count then count else max_count)
  end.

(** [sorted(cons_dict.items(), key=lambda x: x[1], reverse=True)] *)
Definition sorted_cons_dict (cons_dict : dict float) : dict float :=
  sorted_desc snd fltb cons_dict.

(** The loop over [sorted_cons_dict.items()]: bases are appended until the
    running proportion reaches the threshold. *)
Fixpoint select_loop (items : dict float) (cons_threshold : float)
    (cons_bases : list string) (curr_prop : float) : list string :=
  match items with
  | [] => cons_bases
  | (base, prop) :: rest =>
      let cons_bases := cons_bases ++ [base] in
      let curr_prop := fadd curr_prop prop in
      if fleb cons_threshold curr_prop then cons_bases
      else select_loop rest cons_threshold cons_bases curr_prop
  end.

(** The candidate bases of a position, before they are put in
    alphabetical order. *)
Definition select_bases (cons_dict : dict float) (cons_threshold : float)
    : list string :=
  select_loop (sorted_cons_dict cons_dict) cons_threshold [] fzero.

Record loop_state : Type := mk_state {
  counter : Z;
  cons_seq : string;
  cons_confs : list float
}.

Section Resolver.

(** The reverse ambiguity registry of
    [constants/regex_ambiguous_bases.py], from a comma-joined sorted list
    of bases to its ambiguity symbol. *)
Variable _AMBIGUOUS_BASES_DICT_REV : dict string.

(** The symbol of a sorted candidate list, appended to [cons_seq]. *)
Definition append_symbol (cons_seq : string) (cons_bases : list string)
    : result string :=
  match cons_bases with
  | [base] => Ok (append cons_seq base)
  | _ =>
      let amb_string := join "," cons_bases in
      amb_base <- getitem _AMBIGUOUS_BASES_DICT_REV amb_string ;;
      Ok (append cons_seq amb_base)
  end.

(** The body of the [try] statement. *)
Definition try_body (cons_dict : dict float) (max_count : Z)
    (read_count : number) (cons_threshold : float) (cons_seq : string)
    : result (float * string) :=
  max_prop <- truediv (PyInt max_count) read_count ;;
  let cons_bases := sorted_str (select_bases cons_dict cons_threshold) in
  cons_seq <- append_symbol cons_seq cons_bases ;;
  Ok (max_prop, cons_seq).

(** One iteration of the loop over [cons_list]. *)
Definition position (read_count : number) (cons_threshold : float)
    (do_not_include : list Z) (max_line_count : option number)
    (st : loop_state) (count_dict : dict Z) : result loop_state :=
  if in_list (counter st) do_not_include
  then Ok (mk_state (counter st + 1) (append (cons_seq st) "N") (cons_confs st))
  else
    '(cons_dict, max_count) <-
      cons_props count_dict read_count max_line_count [] 0 ;;
    let counter := counter st + 1 in
    match try_body cons_dict max_count read_count cons_threshold (cons_seq st) with
    | Ok (max_prop, cons_seq) =>
        Ok (mk_state counter cons_seq (cons_confs st ++ [max_prop]))
    | Raise ZeroDivisionError =>
        Ok (mk_state counter (cons_seq st) (cons_confs st ++ [fzero]))
    | Raise e => Raise e
    end.

Fixpoint cons_loop (read_count : number) (cons_threshold : float)
    (do_not_include : list Z) (max_line_count : option number)
    (cons_list : list (dict Z)) (st : loop_state) : result loop_state :=
  match cons_list with
  | [] => Ok st
  | count_dict :: rest =>
      st <- position read_count cons_threshold do_not_include
              max_line_count st count_dict ;;
      cons_loop read_count cons_threshold do_not_include max_line_count
        rest st
  end.

Definition build_cons_seq (cons_list : list (dict Z)) (read_count : number)
    (cons_threshold : float) (do_not_include : option (list Z))
    (counter : Z) (max_line_count : option number)
    : result (string * list float) :=
  let do_not_include :=
    match do_not_include with None => [] | Some l => l end in
  st <- cons_loop read_count cons_threshold do_not_include max_line_count
          cons_list (mk_state counter EmptyString []) ;;
  Ok (cons_seq st, cons_confs st).

End Resolver.

(** Modelled from the spec: the reverse ambiguity registry
    ([constants/regex_ambiguous_bases.py] is not among the sources).  It
    maps the sorted, comma-joined expansion of every subset of the four
    bases with at least two elements to its IUPAC symbol. *)
Definition iupac_rev : dict string :=
  [ ("A,G", "R"); ("C,T", "Y"); ("C,G", "S"); ("A,T", "W"); ("G,T", "K");
    ("A,C", "M"); ("C,G,T", "B"); ("A,G,T", "D"); ("A,C,T", "H");
    ("A,C,G", "V"); ("A,C,G,T", "N") ].

(** ** Prefix extractor: [fetch_mcp] *)

(** The characters [str.strip] removes (code points below 256). *)
Definition is_space (c : ascii) : bool :=
  let n := Z.of_nat (nat_of_ascii c) in
  ((9 <=? n) && (n <=? 13)) || ((28 <=? n) && (n <=? 32))
  || (n =? 133) || (n =? 160).

Fixpoint lstrip_by (sp : ascii -> bool) (s : list ascii) : list ascii :=
  match s with
  | [] => []
  | c :: s' => if sp c then lstrip_by sp s' else s
  end.

Definition strip_by (sp : ascii -> bool) (s : string) : string :=
  string_of_list_ascii
    (rev (lstrip_by sp (rev (lstrip_by sp (list_ascii_of_string s))))).

(** [line.strip()] *)
Definition strip : string -> string := strip_by is_space.

(** [Counter(l)]: the number of occurrences of each element, keys in the
    order of their first occurrence. *)
Fixpoint count_into (l : list string) (d : dict Z) : dict Z :=
  match l with
  | [] => d
  | x :: l' => count_into l' (add_count d x 1)
  end.

Definition Counter (l : list string) : dict Z := count_into l [].

(** The window taken from one sequence line. *)
Definition window (prefix_len start : Z) (rev : bool) (line : string) : string :=
  if negb rev then slice line (start - 1) (start + prefix_len - 1)
  else
    let rev_line := reversed line in
    slice rev_line (start - 1) (start + prefix_len - 1).

(** The loop over [enumerate(file)]; it stops at the [break]. *)
Fixpoint lines_loop (prefix_len start : Z) (rev : bool)
    (max_line_count : option Z) (file : list string) (i : Z)
    (selected_lines : list string) : list string :=
  match file with
  | [] => selected_lines
  | line :: rest =>
      let line := strip line in
      let selected_lines :=
        if i mod 4 =? 1
        then selected_lines ++ [window prefix_len start rev line]
        else selected_lines in
      let stop :=
        match max_line_count with
        | Some m => m <? Z.of_nat (List.length selected_lines)
        | None => false
        end in
      if stop then selected_lines
      else lines_loop prefix_len start rev max_line_count rest (i + 1)
             selected_lines
  end.

(** [fastq] is the decompressed text of the file, line by line. *)
Definition fetch_mcp (fastq : list string) (prefix_len start : Z)
    (rev : bool) (max_line_count : option Z) : dict Z :=
  let selected_lines :=
    lines_loop prefix_len start rev max_line_count fastq 0 [] in
  let sequence_counts := Counter selected_lines in
  sorted_desc snd Z.ltb sequence_counts.

(** ** Read count: [get_read_count] *)

(** The bytes [bytes.strip] removes. *)
Definition is_space_byte (c : ascii) : bool :=
  let n := Z.of_nat (nat_of_ascii c) in
  ((9 <=? n) && (n <=? 13)) || (n =? 32).

Definition is_digit (c : ascii) : bool :=
  let n := Z.of_nat (nat_of_ascii c) in (48 <=? n) && (n <=? 57).

(** [s.isdigit()] *)
Definition isdigit (s : string) : bool :=
  match list_ascii_of_string s with
  | [] => false
  | l => forallb is_digit l
  end.

(** [int(s)] on a string of digits. *)
Definition int_of_digits (s : string) : Z :=
  fold_left (fun acc c => 10 * acc + (Z.of_nat (nat_of_ascii c) - 48))
    (list_ascii_of_string s) 0.

Section ReadCount.

(** The two counting pipelines, [zcat read_path | wc -l] and
    [grep -c "^>" read_path]: what [communicate()] returns as standard
    output. *)
Variable zcat_wc_l : string -> string.
Variable grep_c : string -> string.

Definition get_read_count (read_path type : string) : result number :=
  stdout <-
    (if String.eqb type "fastq" then Ok (zcat_wc_l read_path)
     else if String.eqb type "fasta" then Ok (grep_c read_path)
     else Raise (UnboundLocalError "stderr")) ;;
  let read_count := strip_by is_space_byte stdout in
  if negb (isdigit read_count) then Raise (SystemExit 1)
  else
    let read_count := int_of_digits read_count in
    if String.eqb type "fastq"
    then
      read_count <- truediv (PyInt read_count) (PyInt 4) ;;
      Ok (PyFloat read_count)
    else Ok (PyInt read_count).

End ReadCount.

(** ** Vocabulary of the properties *)

(** The sum of the counts of a mapping. *)
Definition total (d : dict Z) : Z := fold_right Z.add 0 (values d).

(** The count a window adds at every position: its table count when it is
    long enough, nothing otherwise. *)
Definition contribution (mcp_len : Z) (entry : string * Z) : Z :=
  if len (fst entry) <? mcp_len then 0 else snd entry.

(** The sum of the table counts of the windows of length at least
    [mcp_len]. *)
Definition qualifying_total (mcp_count_dict : dict Z) (mcp_len : Z) : Z :=
  total (filter (fun entry => negb (len (fst entry) <? mcp_len)) mcp_count_dict).


(** The number of sequence lines (line index 1 modulo 4) of a file read
    from line index [i] on. *)
Fixpoint sequence_records_from (file : list string) (i : Z) : Z :=
  match file with
  | [] => 0
  | _ :: rest =>
      (if i mod 4 =? 1 then 1 else 0) + sequence_records_from rest (i + 1)
  end.

Definition sequence_records (file : list string) : Z :=
  sequence_records_from file 0.

(** A float other than NaN whose sign bit is [s]. *)
Definition signed_as (s : bool) (f : float) : Prop :=
  match f with
  | S754_nan => False
  | S754_zero s' | S754_infinity s' | S754_finite s' _ _ => s' = s
  end.

(** The sign bit of an integer seen as a float. *)
Definition int_sign (z : Z) : bool := z <? 0.

(** The running proportion once the proportions of [items] have been added
    to [curr_prop], in order. *)
Definition mass_from (curr_prop : float) (items : dict float) : float :=
  fold_left fadd (values items) curr_prop.




(** The denominator of the proportions: the override when supplied, else
    the read count. *)
Definition denominator (read_count : number) (max_line_count : option number)
    : number :=
  match max_line_count with
  | None => read_count
  | Some m => m
  end.


(** A registry whose every value is a single symbol. *)
Definition single_symbols (registry : dict string) : Prop :=
  forall key symbol, In (key, symbol) registry -> String.length symbol = 1%nat.

(** [do_not_include] once its default is filled in. *)
Definition gap_list (do_not_include : option (list Z)) : list Z :=
  match do_not_include with
  | None => []
  | Some l => l
  end.

(** The value of the float [f] is exactly [num / den] (for [den > 0]). *)
Definition exactly (f : float) (num den : Z) : Prop :=
  match f with
  | S754_zero _ => num = 0
  | S754_finite s m e =>
      let sm := if s then Zneg m else Zpos m in
      if 0 <=? e then sm * 2 ^ e * den = num else sm * den = num * 2 ^ (- e)
  | _ => False
  end.

(** A returned read count that is not negative. *)
Definition nonnegative (v : number) : Prop :=
  match v with
  | PyInt z => 0 <= z
  | PyFloat f => fleb fzero f = true
  end.

(** A returned read count with an integer value. *)
Definition is_integer (v : number) : bool :=
  match v with
  | PyInt _ => true
  | PyFloat f => float_is_integer f
  end.

(** ** Ambiguity regex query: [primer_regex_query_builder] *)

(** [char in ("A", "C", "T", "G")] *)
Definition is_concrete (char : string) : bool :=
  String.eqb char "A" || String.eqb char "C"
  || String.eqb char "T" || String.eqb char "G".

Section QueryBuilder.

(** The forward ambiguity registry of
    [constants/regex_ambiguous_bases.py], from an ambiguity symbol to its
    character class. *)
Variable _AMBIGUOUS_BASES_DICT : dict string.

(** The loop over the characters of [primer]. *)
Fixpoint query_loop (primer : list ascii) (query : string) : result string :=
  match primer with
  | [] => Ok query
  | c :: rest =>
      let char := String c EmptyString in
      if is_concrete char then query_loop rest (append query char)
      else
        expansion <- getitem _AMBIGUOUS_BASES_DICT char ;;
        query_loop rest (append query expansion)
  end.

Definition primer_regex_query_builder (primer : string) : result string :=
  query <- query_loop (list_ascii_of_string primer) EmptyString ;;
  Ok (append "(.*" (append query "){e<=1}")).

End QueryBuilder.

(** What one character of a primer contributes to the query. *)
Definition expansion_of (registry : dict string) (c : ascii) : option string :=
  let char := String c EmptyString in
  if is_concrete char then Some char else get registry char.

(** The characters of a primer the builder can translate. *)
Definition translatable (registry : dict string) (c : ascii) : Prop :=
  expansion_of registry c <> None.

(** The query body of a list of characters, all of them translatable. *)
Fixpoint query_body (registry : dict string) (primer : list ascii) : string :=
  match primer with
  | [] => EmptyString
  | c :: rest =>
      append (match expansion_of registry c with
              | Some e => e
              | None => EmptyString
              end) (query_body registry rest)
  end.

(** ** More Python primitives *)

(** [sub in s] on strings. *)
Fixpoint contains (sub s : string) : bool :=
  String.prefix sub s
  || match s with
     | EmptyString => false
     | String _ s' => contains sub s'
     end.

(** [s.split(sep)[0]] for a separator of one character. *)
Fixpoint before_first (sep : ascii) (s : string) : string :=
  match s with
  | EmptyString => EmptyString
  | String c s' =>
      if Ascii.eqb c sep then EmptyString else String c (before_first sep s')
  end.

(** [str(z)] on an int. *)
Definition str (z : Z) : string := NilZero.string_of_int (Z.to_int z).

(** [s.add(x)] on a set, kept as a list without repetition. *)
Definition set_add (s : list string) (x : string) : list string :=
  if existsb (String.eqb x) s then s else s ++ [x].

(** ** Sample paths: [split_dir_into_sample_paths] *)

(** The files kept: [".fastq" in file and ("_1" in file or "_2" in file)]. *)
Definition is_read_file (file : string) : bool :=
  contains ".fastq" file && (contains "_1" file || contains "_2" file).

(** [f"{dir}/{file.split('_')[0]}"] *)
Definition sample_path (dir file : string) : string :=
  append dir (append "/" (before_first "_" file)).

(** [listdir] is what [os.listdir(dir)] returns.  The order in which a set
    is listed does not matter to [sorted]. *)
Definition split_dir_into_sample_paths (listdir : list string) (dir : string)
    : list string :=
  let file_list := listdir in
  let file_list := filter is_read_file file_list in
  let sample_set :=
    fold_left (fun sample_set file => set_add sample_set (sample_path dir file))
      file_list [] in
  let sample_list := sorted_str sample_set in
  sample_list.

(** ** Subunit coordinates: [get_subunits_coords.main] *)

Module GetSubunitsCoords.

(** What stops a run: an exception of the interpreter or of [argparse],
    or the input file that cannot be opened. *)
Inductive error : Type :=
| Uncaught (e : exn)
| FileNotFoundError (path : string).

(** What a run leaves behind: whether the help was printed, the chunks
    written to [SSU_coords] and [LSU_coords] and the text of [RNA-counts]
    ([None] for a file the run did not open), and what stopped it. *)
Record run : Type := mk_run {
  help_printed : bool;
  SSU_coords : option (list string);
  LSU_coords : option (list string);
  RNA_counts : option string;
  raised : option error
}.

(** The loop over the lines of the input file. *)
Fixpoint lines_loop (lsu ssu : string) (input : list string)
    (out_ssu out_lsu : list string) (SSU_count LSU_count : Z)
    : list string * list string * Z * Z :=
  match input with
  | [] => (out_ssu, out_lsu, SSU_count, LSU_count)
  | line :: rest =>
      if contains lsu line
      then lines_loop lsu ssu rest out_ssu (out_lsu ++ [line])
             SSU_count (LSU_count + 1)
      else if contains ssu line
      then lines_loop lsu ssu rest (out_ssu ++ [line]) out_lsu
             (SSU_count + 1) LSU_count
      else lines_loop lsu ssu rest out_ssu out_lsu SSU_count LSU_count
  end.

Section Main.

(** [parser.parse_args()]: the values of [--input], [--lsu] and [--ssu],
    or the exit of [argparse]. *)
Variable parse_args : list string -> result (string * string * string).

(** The text files present when the script starts, as their lines with
    the line terminators; [None] for a path that cannot be opened for
    reading.  The working directory is writable. *)
Variable files_before : string -> option (list string).

(** [open(args.input, "r")], after [SSU_coords] and [LSU_coords] have been
    opened for writing, which leaves them empty. *)
Definition open_input (input : string) : option (list string) :=
  if String.eqb input "SSU_coords" || String.eqb input "LSU_coords"
  then Some []
  else files_before input.

(** [argv] is [sys.argv]. *)
Definition main (argv : list string) : run :=
  let SSU_count := 0 in
  let LSU_count := 0 in
  if Z.of_nat (List.length argv) =? 1
  then
    (* parser.print_help(); then out_ssu.close() with out_ssu never bound *)
    mk_run true None None None (Some (Uncaught (UnboundLocalError "out_ssu")))
  else
    match parse_args argv with
    | Raise e => mk_run false None None None (Some (Uncaught e))
    | Ok (input, lsu, ssu) =>
        match open_input input with
        | None =>
            (* the with statement closes the two outputs, left empty *)
            mk_run false (Some []) (Some []) None
              (Some (FileNotFoundError input))
        | Some lines =>
            let '(out_ssu, out_lsu, SSU_count, LSU_count) :=
              lines_loop lsu ssu lines [] [] SSU_count LSU_count in
            let count :=
              append "LSU count" (append (String "009" EmptyString)
                (append (str LSU_count)
                   (append (String "010" EmptyString)
                      (append "SSU count" (append (String "009" EmptyString)
                         (str SSU_count)))))) in
            mk_run false (Some out_ssu) (Some out_lsu) (Some count) None
        end
    end.

End Main.

End GetSubunitsCoords.

(** ** Vocabulary of the further properties *)

(** The largest count among the entries of the four concrete bases, and 0
    when none of them is positive. *)
Definition max_base_count (count_dict : dict Z) : Z :=
  fold_left
    (fun m entry => if is_base (fst entry) then Z.max m (snd entry) else m)
    count_dict 0.

(** The confidence recorded for a largest count: the quotient by the read
    count, and [0.0] when the division faults. *)
Definition confidence (read_count : number) (max_count : Z) : float :=
  match truediv (PyInt max_count) read_count with
  | Ok max_prop => max_prop
  | Raise _ => fzero
  end.

(** The count mappings of the positions that are not forced gaps, the
    first position being numbered [counter]. *)
Fixpoint non_gap_positions (do_not_include : list Z) (counter : Z)
    (cons_list : list (dict Z)) : list (dict Z) :=
  match cons_list with
  | [] => []
  | count_dict :: rest =>
      if in_list counter do_not_include
      then non_gap_positions do_not_include (counter + 1) rest
      else count_dict :: non_gap_positions do_not_include (counter + 1) rest
  end.

(** A loop state with a consensus and confidences put in front of its
    own. *)
Definition prepend (seq : string) (confs : list float) (st : loop_state)
    : loop_state :=
  mk_state (counter st) (append seq (cons_seq st)) (confs ++ cons_confs st).

(** The window [mcp] is long enough and holds [base] at offset [i]. *)
Definition has_base_at (mcp_len i : Z) (base : string) (mcp : string) : bool :=
  negb (len mcp <? mcp_len)
  && match index mcp i with
     | Ok c => String.eqb c base
     | Raise _ => false
     end.

(** The summed table counts of the windows that hold [base] at offset
    [i]. *)
Definition base_count (mcp_count_dict : dict Z) (mcp_len i : Z)
    (base : string) : Z :=
  total (filter (fun entry => has_base_at mcp_len i base (fst entry))
           mcp_count_dict).

(** What the mapping of a position holds once the windows [done] have been
    visited. *)
Definition counted (mcp_len i : Z) (done : dict Z) (acc : dict Z) : Prop :=
  wf acc
  /\ forall base,
       get acc base
       = if existsb (has_base_at mcp_len i base) (keys done)
         then Some (base_count done mcp_len i base)
         else None.

(** The sequence lines of a file (line index 1 modulo 4), read from line
    index [i] on. *)
Fixpoint sequence_lines_from (file : list string) (i : Z) : list string :=
  match file with
  | [] => []
  | line :: rest =>
      (if i mod 4 =? 1 then [line] else [])
      ++ sequence_lines_from rest (i + 1)
  end.

(** The windows of the records of a file, in the order of the file. *)
Definition windows (fastq : list string) (prefix_len start : Z) (rev : bool)
    : list string :=
  map (fun line => window prefix_len start rev (strip line))
    (sequence_lines_from fastq 0).

(** The windows that are counted: all of them, or the first [m + 1] under
    a record cap [m]. *)
Definition counted_windows (fastq : list string) (prefix_len start : Z)
    (rev : bool) (max_line_count : option Z) : list string :=
  match max_line_count with
  | None => windows fastq prefix_len start rev
  | Some m => firstn (Z.to_nat (m + 1)) (windows fastq prefix_len start rev)
  end.

(** Counts in descending order. *)
Definition descending_counts (d : dict Z) : Prop :=
  StronglySorted (fun p q => snd q <= snd p) d.

(** * Properties *)

(** ** The worked scenario *)

(** C6: on the window table [{"AT": 9, "GT": 1}] with window length 2 the
    aggregator yields the position counts [{A: 9, G: 1}] then [{T: 10}], and
    the resolver, on that table with read count 10 and threshold 0.8,
    returns the consensus ["AT"] with confidences [[0.9, 1.0]], whatever the
    ambiguity registry holds and whether the read count is the int [10] or
    the float [10.0]. *)
Theorem scenario_AT :
  build_mcp_cons_dict_list [("AT", 9); ("GT", 1)] 2
    = Ok [[("A", 9); ("G", 1)]; [("T", 10)]]
  /\ forall registry read_count,
       read_count = PyInt 10 \/ read_count = PyFloat (lit 10) ->
       build_cons_seq registry [[("A", 9); ("G", 1)]; [("T", 10)]]
         read_count (lit 0.8) None 1 None
       = Ok ("AT", [lit 0.9; lit 1.0]).
Proof.
  split.
  - vm_compute. reflexivity.
  - intros registry read_count [-> | ->]; vm_compute; reflexivity.
Qed.

Lemma scenario_AT_witness :
  build_cons_seq iupac_rev [[("A", 9); ("G", 1)]; [("T", 10)]]
    (PyInt 10) (lit 0.8) None 1 None
  = Ok ("AT", [lit 0.9; lit 1.0]).
Proof.
  apply scenario_AT. left. reflexivity.
Defined.

(** ** Dictionaries and fallible computations: basic facts *)

Lemma total_setitem (d : dict Z) (k : string) (v : Z) :
  total (setitem d k v)
  = total d - match get d k with Some c => c | None => 0 end + v.
Proof.
  induction d as [|[k' v'] d IH]; simpl.
  - unfold total; simpl. lia.
  - destruct (String.eqb k' k); unfold total in *; simpl in *; lia.
Qed.

Lemma total_add_count (d : dict Z) (base : string) (n : Z) :
  total (add_count d base n) = total d + n.
Proof.
  unfold add_count. rewrite total_setitem. lia.
Qed.

Lemma get_In {V : Type} (d : dict V) (k : string) (v : V) :
  wf d -> In (k, v) d -> get d k = Some v.
Proof.
  unfold wf. induction d as [|[k' v'] d IH]; simpl; intros Hwf Hin.
  - contradiction.
  - inversion Hwf as [|? ? Hnotin Hnodup]; subst.
    destruct Hin as [Heq | Hin].
    + inversion Heq; subst. now rewrite String.eqb_refl.
    + destruct (String.eqb k' k) eqn:E.
      * apply String.eqb_eq in E; subst.
        exfalso. apply Hnotin. now apply (in_map fst) in Hin.
      * now apply IH.
Qed.

(** ** The conservation aggregator *)

Lemma qualifying_total_contribution (d : dict Z) (mcp_len : Z) :
  qualifying_total d mcp_len
  = fold_right Z.add 0 (map (contribution mcp_len) d).
Proof.
  unfold qualifying_total, contribution, total, values.
  induction d as [|[k v] d IH]; simpl; [reflexivity|].
  destruct (len k <? mcp_len); simpl; lia.
Qed.

Lemma index_in_range (s : string) (i : Z) :
  0 <= i < len s -> exists c, index s i = Ok c.
Proof.
  unfold index, len. intros Hi.
  replace (i <? 0) with false by (symmetry; apply Z.ltb_ge; lia).
  replace (i <? 0) with false by (symmetry; apply Z.ltb_ge; lia).
  replace (Z.of_nat (String.length s) <=? i) with false
    by (symmetry; apply Z.leb_gt; lia).
  simpl.
  destruct (String.get (Z.to_nat i) s) as [c|] eqn:E; [eauto|].
  exfalso.
  assert (Hlt : (Z.to_nat i < String.length s)%nat) by lia.
  clear Hi. revert Hlt E. generalize (Z.to_nat i) as n.
  induction s as [|a s IH]; intros n Hlt E; simpl in *; [lia|].
  destruct n as [|n]; [discriminate|]. apply (IH n); [lia | exact E].
Qed.

(** The inner loop adds the contribution of each window it visits. *)
Lemma index_base_loop_total (mcp_count_dict : dict Z) (mcp_len i : Z) :
  wf mcp_count_dict -> 0 <= i < mcp_len ->
  forall (entries : dict Z) (index_base_dict : dict Z),
    incl entries mcp_count_dict ->
    exists d,
      index_base_loop mcp_count_dict mcp_len i (keys entries) index_base_dict
        = Ok d
      /\ total d
         = total index_base_dict
           + fold_right Z.add 0 (map (contribution mcp_len) entries).
Proof.
  intros Hwf Hi entries.
  induction entries as [|[mcp n] entries IH]; intros acc Hincl; simpl.
  - exists acc. split; [reflexivity | lia].
  - assert (Hin : In (mcp, n) mcp_count_dict) by (apply Hincl; now left).
    assert (Hrest : incl entries mcp_count_dict)
      by (intros x Hx; apply Hincl; now right).
    unfold contribution at 1; simpl.
    destruct (len mcp <? mcp_len) eqn:Hlen.
    + destruct (IH acc Hrest) as [d [Hd Ht]]. exists d. split; [exact Hd | lia].
    + apply Z.ltb_ge in Hlen.
      destruct (index_in_range mcp i) as [base Hbase]; [lia|].
      rewrite Hbase; simpl.
      unfold getitem. rewrite (get_In _ _ _ Hwf Hin); simpl.
      destruct (IH (add_count acc base n) Hrest) as [d [Hd Ht]].
      exists d. split; [exact Hd|].
      rewrite Ht, total_add_count. lia.
Qed.

Lemma positions_loop_total (mcp_count_dict : dict Z) (mcp_len : Z) :
  wf mcp_count_dict ->
  forall (positions : list Z) (mcp_cons_list : list (dict Z)),
    Forall (fun i => 0 <= i < mcp_len) positions ->
    Forall (fun d => total d = qualifying_total mcp_count_dict mcp_len)
      mcp_cons_list ->
    exists l,
      positions_loop mcp_count_dict mcp_len positions mcp_cons_list = Ok l
      /\ List.length l
         = (List.length mcp_cons_list + List.length positions)%nat
      /\ Forall (fun d => total d = qualifying_total mcp_count_dict mcp_len) l.
Proof.
  intros Hwf positions.
  induction positions as [|i positions IH]; intros acc Hpos Hacc; simpl.
  - exists acc. repeat split; [lia | exact Hacc].
  - inversion Hpos as [|? ? Hi Hpos']; subst.
    destruct (index_base_loop_total mcp_count_dict mcp_len i Hwf Hi
                mcp_count_dict [] (incl_refl _)) as [d [Hd Ht]].
    rewrite Hd; simpl.
    destruct (IH (acc ++ [d]) Hpos') as [l [Hl [Hlen Hall]]].
    + apply Forall_app. split; [exact Hacc|].
      constructor; [|constructor].
      rewrite Ht, qualifying_total_contribution. unfold total; simpl. lia.
    + exists l. repeat split; [exact Hl | | exact Hall].
      rewrite Hlen, length_app. simpl. lia.
Qed.

Lemma range_bounds (n : Z) : Forall (fun i => 0 <= i < n) (range n).
Proof.
  unfold range. apply Forall_forall. intros i Hi.
  apply in_map_iff in Hi. destruct Hi as [k [Hk Hin]].
  apply in_seq in Hin. lia.
Qed.

Lemma range_length (n : Z) : List.length (range n) = Z.to_nat n.
Proof.
  unfold range. now rewrite length_map, length_seq.
Qed.

(** C10: for every window frequency table and window length [mcp_len], the
    aggregator returns [mcp_len] count mappings and each of them has the
    same total count: the sum of the table counts of the windows whose
    length is at least [mcp_len]. *)
Theorem position_totals_equal (mcp_count_dict : dict Z) (mcp_len : Z) :
  wf mcp_count_dict ->
  exists mcp_cons_list,
    build_mcp_cons_dict_list mcp_count_dict mcp_len = Ok mcp_cons_list
    /\ List.length mcp_cons_list = Z.to_nat mcp_len
    /\ Forall (fun d => total d = qualifying_total mcp_count_dict mcp_len)
         mcp_cons_list.
Proof.
  intros Hwf. unfold build_mcp_cons_dict_list.
  destruct (positions_loop_total mcp_count_dict mcp_len Hwf (range mcp_len) []
              (range_bounds mcp_len) (Forall_nil _)) as [l [Hl [Hlen Hall]]].
  exists l. repeat split; [exact Hl | | exact Hall].
  rewrite Hlen, range_length. reflexivity.
Qed.

Lemma position_totals_equal_witness :
  wf [("ATG", 9); ("GT", 4); ("GTC", 1)]
  /\ exists mcp_cons_list,
       build_mcp_cons_dict_list [("ATG", 9); ("GT", 4); ("GTC", 1)] 3
         = Ok mcp_cons_list
       /\ List.length mcp_cons_list = Z.to_nat 3
       /\ Forall (fun d => total d
                    = qualifying_total [("ATG", 9); ("GT", 4); ("GTC", 1)] 3)
            mcp_cons_list.
Proof.
  assert (Hwf : wf [("ATG", 9); ("GT", 4); ("GTC", 1)]).
  { unfold wf; simpl.
    repeat constructor; simpl; intuition discriminate. }
  split; [exact Hwf|].
  apply (position_totals_equal [("ATG", 9); ("GT", 4); ("GTC", 1)] 3 Hwf).
Defined.

(** ** The prefix extractor *)

Lemma sequence_records_from_nonneg (file : list string) (i : Z) :
  0 <= sequence_records_from file i.
Proof.
  revert i. induction file as [|line rest IH]; intros i; simpl; [lia|].
  specialize (IH (i + 1)). destruct (i mod 4 =? 1); lia.
Qed.

(** A file of [n] lines holds a sequence line for every started record
    that reaches its second line. *)
Lemma sequence_records_length (file : list string) :
  sequence_records file = (Z.of_nat (List.length file) + 2) / 4.
Proof.
  unfold sequence_records.
  assert (H : forall i, 0 <= i ->
            sequence_records_from file i
            = (Z.of_nat (List.length file) + (i + 2) mod 4) / 4).
  { induction file as [|line rest IH]; intros i Hi.
    - simpl. symmetry. apply Z.div_small.
      pose proof (Z.mod_pos_bound (i + 2) 4). lia.
    - cbn [sequence_records_from List.length]. rewrite IH by lia.
      rewrite Nat2Z.inj_succ.
      destruct (i mod 4 =? 1) eqn:E.
      + apply Z.eqb_eq in E. Z.div_mod_to_equations. lia.
      + apply Z.eqb_neq in E. Z.div_mod_to_equations. lia. }
  rewrite (H 0) by lia. reflexivity.
Qed.

Lemma lines_loop_length (prefix_len start : Z) (rev : bool) (m : Z)
    (file : list string) :
  forall (i : Z) (selected_lines : list string),
    Z.of_nat (List.length selected_lines) <= m ->
    Z.of_nat (List.length
                (lines_loop prefix_len start rev (Some m) file i selected_lines))
    = Z.min (Z.of_nat (List.length selected_lines)
             + sequence_records_from file i) (m + 1).
Proof.
  induction file as [|line rest IH]; intros i sel Hsel; simpl.
  - lia.
  - pose proof (sequence_records_from_nonneg rest (i + 1)) as Hnn.
    destruct (i mod 4 =? 1).
    + destruct (m <? _) eqn:Hstop.
      * apply Z.ltb_lt in Hstop.
        rewrite length_app, Nat2Z.inj_add in *. cbn [List.length] in *. lia.
      * apply Z.ltb_ge in Hstop. rewrite IH by exact Hstop.
        rewrite length_app, Nat2Z.inj_add. cbn [List.length]. lia.
    + destruct (m <? _) eqn:Hstop.
      * apply Z.ltb_lt in Hstop. lia.
      * rewrite IH by exact Hsel. lia.
Qed.

Lemma total_count_into (l : list string) :
  forall d, total (count_into l d) = total d + Z.of_nat (List.length l).
Proof.
  induction l as [|x l IH]; intros d; simpl; [lia|].
  rewrite IH, total_add_count. lia.
Qed.

Lemma total_insert_desc (lt : Z -> Z -> bool) (x : string * Z) (l : dict Z) :
  total (insert_desc snd lt x l) = snd x + total l.
Proof.
  induction l as [|y l IH]; simpl; [reflexivity|].
  destruct (lt (snd x) (snd y)); unfold total in *; simpl in *; lia.
Qed.

Lemma total_sorted_desc (lt : Z -> Z -> bool) (l : dict Z) :
  total (sorted_desc snd lt l) = total l.
Proof.
  induction l as [|x l IH]; simpl; [reflexivity|].
  rewrite total_insert_desc, IH. reflexivity.
Qed.

(** A negative cap stops the loop at the first line, before any window is
    taken. *)
Lemma fetch_mcp_negative_cap (fastq : list string) (prefix_len start : Z)
    (rev : bool) (m : Z) :
  m < 0 -> fetch_mcp fastq prefix_len start rev (Some m) = [].
Proof.
  intros Hm. unfold fetch_mcp.
  destruct fastq as [|line rest]; [reflexivity|].
  cbn [lines_loop]. change (0 mod 4 =? 1) with false. cbv iota.
  change (Z.of_nat (List.length (@nil string))) with 0.
  replace (m <? 0) with true by (symmetry; apply Z.ltb_lt; exact Hm).
  reflexivity.
Qed.

(** C7: with a record cap [m], extraction stops as soon as more than [m]
    windows are held: the counts of the returned frequency table add up to
    the smaller of the number of sequence records of the file and
    [m + 1]. *)
Theorem fetch_mcp_cap (fastq : list string) (prefix_len start : Z)
    (rev : bool) (m : Z) :
  0 <= m ->
  total (fetch_mcp fastq prefix_len start rev (Some m))
  = Z.min (sequence_records fastq) (m + 1).
Proof.
  intros Hm. unfold fetch_mcp, Counter.
  rewrite total_sorted_desc, total_count_into.
  rewrite lines_loop_length by (simpl; lia).
  unfold total, sequence_records; simpl. lia.
Qed.

Lemma fetch_mcp_cap_witness :
  0 <= 1
  /\ total (fetch_mcp ["@r1"; "ATGC"; "+"; "IIII"; "@r2"; "ATGA"; "+"; "IIII";
                       "@r3"; "GTCC"; "+"; "IIII"] 2 1 false (Some 1))
     = Z.min (sequence_records
                ["@r1"; "ATGC"; "+"; "IIII"; "@r2"; "ATGA"; "+"; "IIII";
                 "@r3"; "GTCC"; "+"; "IIII"]) (1 + 1).
Proof.
  split; [lia|]. apply fetch_mcp_cap. lia.
Defined.

(** ** Binary64 facts *)

Ltac float_cases :=
  repeat match goal with
         | |- context [Pos.compare_cont Eq ?a ?b] =>
             change (Pos.compare_cont Eq a b) with (Pos.compare a b);
             destruct (Pos.compare_spec a b)
         | |- context [Z.compare ?a ?b] => destruct (Z.compare_spec a b)
         end;
  simpl; intros; subst; try reflexivity; try discriminate; try lia.

(** [<=] on floats is transitive; no comparison with NaN holds. *)
Lemma fleb_trans (x y z : float) :
  fleb x y = true -> fleb y z = true -> fleb x z = true.
Proof.
  unfold fleb, SFleb, SFcompare.
  destruct x as [sx|sx| |sx mx ex], y as [sy|sy| |sy my ey],
    z as [sz|sz| |sz mz ez];
    try destruct sx; try destruct sy; try destruct sz;
    simpl; try reflexivity; try discriminate; float_cases.
Qed.



(** Rounding a non-negative mantissa never yields NaN and keeps the sign. *)
Lemma shr_1_nonneg (mrs : shr_record) :
  0 <= shr_m mrs -> 0 <= shr_m (shr_1 mrs).
Proof.
  destruct mrs as [m r s]. destruct m as [|p|p]; simpl; intros H;
    [lia | destruct p; simpl; lia | lia].
Qed.

Lemma iter_shr_1_nonneg (p : positive) :
  forall mrs, 0 <= shr_m mrs -> 0 <= shr_m (iter_pos shr_1 p mrs).
Proof.
  induction p as [p IH|p IH|]; intros mrs H; simpl.
  - apply IH, IH, shr_1_nonneg, H.
  - apply IH, IH, H.
  - apply shr_1_nonneg, H.
Qed.

Lemma shr_fexp_nonneg (m e : Z) (l : location) :
  0 <= m -> 0 <= shr_m (fst (shr_fexp prec emax m e l)).
Proof.
  intros H. unfold shr_fexp, shr.
  assert (H0 : 0 <= shr_m (shr_record_of_loc m l))
    by (destruct l as [|[| |]]; exact H).
  destruct (fexp prec emax (Zdigits2 m + e) - e); simpl;
    [exact H0 | apply iter_shr_1_nonneg, H0 | exact H0].
Qed.

Lemma round_nearest_even_nonneg (m : Z) (l : location) :
  0 <= m -> 0 <= round_nearest_even m l.
Proof.
  intros H. unfold round_nearest_even.
  destruct l as [|[| |]]; [lia | destruct (Z.even m); lia | lia | lia].
Qed.

Lemma binary_round_aux_signed (s : bool) (m e : Z) (l : location) :
  0 <= m -> signed_as s (binary_round_aux prec emax s m e l).
Proof.
  intros H. unfold binary_round_aux.
  pose proof (shr_fexp_nonneg m e l H) as H1.
  destruct (shr_fexp prec emax m e l) as [mrs' e']. simpl in H1.
  pose proof (shr_fexp_nonneg _ e' loc_Exact
                (round_nearest_even_nonneg _ (loc_of_shr_record mrs') H1)) as H2.
  destruct (shr_fexp prec emax _ e' loc_Exact) as [mrs'' e'']. simpl in H2.
  destruct (shr_m mrs'') as [|p|p]; simpl; [reflexivity | | lia].
  destruct (e'' <=? 971); reflexivity.
Qed.

Lemma SFdiv_core_nonneg (m1 m2 : positive) (e1 e2 : Z) :
  0 <= fst (fst (SFdiv_core_binary prec emax (Zpos m1) e1 (Zpos m2) e2)).
Proof.
  unfold SFdiv_core_binary.
  set (s := _ - _ - _).
  set (m' := match s with Z0 => _ | Zpos _ => _ | Zneg _ => _ end).
  assert (Hm' : 0 <= m').
  { subst m'. destruct s; [lia | apply Z.shiftl_nonneg; lia | lia]. }
  pose proof (Z_div_mod m' (Zpos m2) eq_refl) as Hdiv.
  destruct (Z.div_eucl m' (Zpos m2)) as [q r]. simpl. nia.
Qed.

Lemma fdiv_finite_signed (sx sy : bool) (mx my : positive) (ex ey : Z) :
  signed_as (xorb sx sy) (fdiv (S754_finite sx mx ex) (S754_finite sy my ey)).
Proof.
  unfold fdiv, SFdiv.
  pose proof (SFdiv_core_nonneg mx my ex ey) as H.
  destruct (SFdiv_core_binary prec emax (Zpos mx) ex (Zpos my) ey) as [[mz ez] lz].
  apply binary_round_aux_signed. exact H.
Qed.



Lemma int_truediv_signed (a b : Z) (p : float) :
  int_truediv a b = Ok p -> signed_as (xorb (int_sign a) (int_sign b)) p.
Proof.
  unfold int_truediv. destruct (b =? 0) eqn:Hb; [discriminate|].
  apply Z.eqb_neq in Hb.
  assert (H : signed_as (xorb (int_sign a) (int_sign b))
                (fdiv (exact_int a) (exact_int b))).
  { destruct a as [|a|a], b as [|b|b]; try lia; cbn [exact_int];
      try apply fdiv_finite_signed; reflexivity. }
  destruct (fdiv (exact_int a) (exact_int b));
    intros E; inversion E; subst; exact H.
Qed.





(** ** Stable descending sort *)

Section SortFacts.
Context {A K : Type} (key : A -> K) (lt : K -> K -> bool).

Lemma insert_desc_perm (x : A) (l : list A) :
  Permutation (insert_desc key lt x l) (x :: l).
Proof.
  induction l as [|y l IH]; simpl; [reflexivity|].
  destruct (lt (key x) (key y)); [|reflexivity].
  rewrite IH. apply perm_swap.
Qed.

Lemma sorted_desc_perm (l : list A) : Permutation (sorted_desc key lt l) l.
Proof.
  induction l as [|x l IH]; simpl; [reflexivity|].
  rewrite insert_desc_perm. now apply perm_skip.
Qed.

End SortFacts.



(** ** Candidate selection *)

Lemma select_loop_acc (items : dict float) (thr : float) :
  forall (acc : list string) (curr : float),
    select_loop items thr acc curr = acc ++ select_loop items thr [] curr.
Proof.
  induction items as [|[base prop] rest IH]; intros acc curr; simpl.
  - now rewrite app_nil_r.
  - destruct (fleb thr (fadd curr prop)); [reflexivity|].
    rewrite (IH (acc ++ [base])), (IH [base]). now rewrite app_assoc.
Qed.

(** Raising the threshold extends the selection. *)
Lemma select_loop_monotone (items : dict float) (t1 t2 : float) :
  fleb t1 t2 = true ->
  forall (acc : list string) (curr : float),
    exists more,
      select_loop items t2 acc curr = select_loop items t1 acc curr ++ more.
Proof.
  intros Hle. induction items as [|[base prop] rest IH]; intros acc curr; simpl.
  - exists []. now rewrite app_nil_r.
  - destruct (fleb t2 (fadd curr prop)) eqn:E2.
    + rewrite (fleb_trans _ _ _ Hle E2). exists []. now rewrite app_nil_r.
    + destruct (fleb t1 (fadd curr prop)) eqn:E1.
      * rewrite select_loop_acc. eauto.
      * apply IH.
Qed.

(** The loop stops at the first non-empty prefix whose running proportion
    reaches the threshold, and takes every item when there is none. *)
Lemma select_loop_prefix (thr : float) (items : dict float) :
  forall (acc : list string) (curr : float),
    exists k : nat,
      (k <= List.length items)%nat
      /\ select_loop items thr acc curr = acc ++ keys (firstn k items)
      /\ (k = List.length items
          \/ fleb thr (mass_from curr (firstn k items)) = true)
      /\ (forall j : nat, (0 < j < k)%nat ->
            fleb thr (mass_from curr (firstn j items)) = false)
      /\ (items <> [] -> (0 < k)%nat).
Proof.
  induction items as [|[base prop] rest IH]; intros acc curr.
  - exists 0%nat. simpl. rewrite app_nil_r.
    repeat split; [lia | now left | lia | congruence].
  - simpl. destruct (fleb thr (fadd curr prop)) eqn:E.
    + exists 1%nat. simpl. repeat split; [lia | | lia | lia].
      right. unfold mass_from; simpl. exact E.
    + destruct (IH (acc ++ [base]) (fadd curr prop))
        as [k [Hk [Hsel [Hstop [Hmin _]]]]].
      exists (S k). simpl. repeat split.
      * lia.
      * rewrite Hsel, <- app_assoc. reflexivity.
      * destruct Hstop as [Hall | Hmeet]; [left; lia | right; exact Hmeet].
      * intros [|j] Hj; [lia|]. simpl.
        destruct j as [|j]; [exact E|]. apply (Hmin (S j)). lia.
      * lia.
Qed.

(** C5: for every position's proportions and every pair of thresholds
    [t1 <= t2], the candidate bases selected at [t1] are the first of those
    selected at [t2]; in particular they are a subset of them. *)
Theorem threshold_monotone (cons_dict : dict float) (t1 t2 : float) :
  fleb t1 t2 = true ->
  (exists more,
     select_bases cons_dict t2 = select_bases cons_dict t1 ++ more)
  /\ incl (select_bases cons_dict t1) (select_bases cons_dict t2).
Proof.
  intros Hle. unfold select_bases.
  destruct (select_loop_monotone (sorted_cons_dict cons_dict) t1 t2 Hle [] fzero)
    as [more Hmore].
  split; [now exists more|].
  rewrite Hmore. apply incl_appl, incl_refl.
Qed.

Lemma threshold_monotone_witness :
  fleb (lit 0.5) (lit 0.95) = true
  /\ incl (select_bases [("A", lit 0.6); ("G", lit 0.3); ("T", lit 0.1)] (lit 0.5))
       (select_bases [("A", lit 0.6); ("G", lit 0.3); ("T", lit 0.1)] (lit 0.95)).
Proof.
  split; [vm_compute; reflexivity|].
  apply (threshold_monotone _ (lit 0.5) (lit 0.95)). vm_compute. reflexivity.
Defined.

(** ** The proportions of a position *)

Lemma In_setitem {V : Type} (d : dict V) (k : string) (v : V)
    (k' : string) (v' : V) :
  In (k', v') (setitem d k v) -> In (k', v') d \/ (k' = k /\ v' = v).
Proof.
  induction d as [|[k0 v0] d IH]; simpl.
  - intros [E|[]]. inversion E. now right.
  - destruct (String.eqb k0 k) eqn:Hk; simpl.
    + intros [E|Hin].
      * inversion E; subst. apply String.eqb_eq in Hk. now right.
      * left. now right.
    + intros [E|Hin]; [left; now left|].
      destruct (IH Hin) as [H|H]; [left; now right | now right].
Qed.

Lemma prop_denominator (count : Z) (read_count : number)
    (max_line_count : option number) :
  match max_line_count with
  | None => truediv (PyInt count) read_count
  | Some m => truediv (PyInt count) m
  end = truediv (PyInt count) (denominator read_count max_line_count).
Proof.
  destruct max_line_count; reflexivity.
Qed.

(** Every proportion the loop stores is the count of one of the four
    concrete bases divided by the denominator. *)
Lemma cons_props_entries (read_count : number) (max_line_count : option number)
    (items : dict Z) :
  forall (acc : dict float) (mc : Z) (cons_dict : dict float) (max_count : Z),
    cons_props items read_count max_line_count acc mc = Ok (cons_dict, max_count) ->
    forall base prop,
      In (base, prop) cons_dict ->
      In (base, prop) acc
      \/ (is_base base = true
          /\ exists count,
               In (base, count) items
               /\ truediv (PyInt count) (denominator read_count max_line_count)
                  = Ok prop).
Proof.
  induction items as [|[b c] rest IH]; intros acc mc cons_dict max_count;
    cbn [cons_props].
  - intros E base prop Hin. inversion E; subst. now left.
  - destruct (is_base b) eqn:Hb; cbn [negb].
    + rewrite prop_denominator.
      destruct (truediv (PyInt c) (denominator read_count max_line_count))
        as [p|e] eqn:Hp; simpl; [|discriminate].
      intros E base prop Hin.
      destruct (IH _ _ _ _ E base prop Hin) as [Hacc | [Hbase [count [Hc Hd]]]].
      * apply In_setitem in Hacc. destruct Hacc as [Hacc | [-> ->]].
        -- now left.
        -- right. split; [exact Hb|]. exists c. split; [now left | exact Hp].
      * right. split; [exact Hbase|]. exists count. split; [now right | exact Hd].
    + intros E base prop Hin.
      destruct (IH _ _ _ _ E base prop Hin) as [Hacc | [Hbase [count [Hc Hd]]]].
      * now left.
      * right. split; [exact Hbase|]. exists count. split; [now right | exact Hd].
Qed.



(** ** Division by the read count *)

(** A zero divisor makes [max_count / read_count] raise
    [ZeroDivisionError], once [max_count] has been converted. *)
Lemma truediv_by_zero (max_count : Z) (d : number) :
  is_zero d = true ->
  float_of_int max_count <> Raise OverflowError ->
  truediv (PyInt max_count) d = Raise ZeroDivisionError.
Proof.
  destruct d as [y|g]; simpl; intros Hz Hconv.
  - unfold int_truediv. now rewrite Hz.
  - destruct (float_of_int max_count) as [f|e] eqn:Hf; simpl.
    + unfold float_truediv. now rewrite Hz.
    + exfalso. apply Hconv. unfold float_of_int in Hf |- *.
      destruct (binary_normalize prec emax max_count 0 false);
        congruence.
Qed.

(** A non-zero divisor never does. *)
Lemma truediv_nonzero (max_count : Z) (d : number) :
  is_zero d = false ->
  truediv (PyInt max_count) d <> Raise ZeroDivisionError.
Proof.
  destruct d as [y|g]; simpl; intros Hz.
  - unfold int_truediv. rewrite Hz.
    destruct (fdiv (exact_int max_count) (exact_int y)); discriminate.
  - unfold float_of_int.
    destruct (binary_normalize prec emax max_count 0 false); simpl;
      unfold float_truediv; try rewrite Hz; discriminate.
Qed.

Lemma truediv_zero_count (d : number) :
  is_zero d = false -> exists f, truediv (PyInt 0) d = Ok f.
Proof.
  destruct d as [y|g]; simpl; intros Hz.
  - unfold int_truediv. rewrite Hz. apply Z.eqb_neq in Hz.
    destruct y as [|y|y]; [lia | |]; simpl; eauto.
  - unfold float_truediv. rewrite Hz. eauto.
Qed.

(** ** The resolver loop *)

Section ResolverFacts.
Variable registry : dict string.
Variable read_count : number.
Variable cons_threshold : float.
Variable do_not_include : list Z.
Variable max_line_count : option number.

Lemma cons_loop_app (pre post : list (dict Z)) :
  forall st,
    cons_loop registry read_count cons_threshold do_not_include max_line_count
      (pre ++ post) st
    = (st' <- cons_loop registry read_count cons_threshold do_not_include
                max_line_count pre st ;;
       cons_loop registry read_count cons_threshold do_not_include
         max_line_count post st').
Proof.
  induction pre as [|cd pre IH]; intros st; simpl; [reflexivity|].
  destruct (position registry read_count cons_threshold do_not_include
              max_line_count st cd) as [st1|e]; simpl; [apply IH | reflexivity].
Qed.

(** A position reached with a zero read count, once its proportions are
    computed: the fault is caught, [0.0] is recorded, nothing is appended
    to the consensus. *)
Lemma position_zero_read_count (st : loop_state) (count_dict : dict Z)
    (cons_dict : dict float) (max_count : Z) :
  in_list (counter st) do_not_include = false ->
  cons_props count_dict read_count max_line_count [] 0
    = Ok (cons_dict, max_count) ->
  is_zero read_count = true ->
  float_of_int max_count <> Raise OverflowError ->
  position registry read_count cons_threshold do_not_include max_line_count
    st count_dict
  = Ok (mk_state (counter st + 1) (cons_seq st) (cons_confs st ++ [fzero])).
Proof.
  intros Hgap Hprops Hz Hconv. unfold position.
  rewrite Hgap, Hprops. simpl. unfold try_body.
  rewrite (truediv_by_zero _ _ Hz Hconv). reflexivity.
Qed.

End ResolverFacts.

(** C1 (amended): at a position that is not a forced gap, reached with a
    total read count of zero and whose proportions were computed, the
    division fault of [max_count / read_count] is caught: the confidence
    [0.0] is recorded for that position, no symbol is appended to the
    consensus for it, the counter advances and the loop goes on with the
    following positions. *)
Theorem zero_read_count_caught (registry : dict string) (read_count : number)
    (cons_threshold : float) (do_not_include : list Z)
    (max_line_count : option number) (st : loop_state) (count_dict : dict Z)
    (rest : list (dict Z)) (cons_dict : dict float) (max_count : Z) :
  in_list (counter st) do_not_include = false ->
  cons_props count_dict read_count max_line_count [] 0
    = Ok (cons_dict, max_count) ->
  is_zero read_count = true ->
  float_of_int max_count <> Raise OverflowError ->
  cons_loop registry read_count cons_threshold do_not_include max_line_count
    (count_dict :: rest) st
  = cons_loop registry read_count cons_threshold do_not_include max_line_count
      rest
      (mk_state (counter st + 1) (cons_seq st) (cons_confs st ++ [fzero])).
Proof.
  intros Hgap Hprops Hz Hconv. simpl.
  rewrite (position_zero_read_count registry read_count cons_threshold
             do_not_include max_line_count st count_dict cons_dict max_count
             Hgap Hprops Hz Hconv).
  reflexivity.
Qed.

Lemma zero_read_count_caught_witness :
  cons_loop iupac_rev (PyFloat fzero) (lit 0.8) [] (Some (PyInt 10))
    [[("A", 9); ("G", 1)]; [("T", 10)]] (mk_state 1 EmptyString [])
  = cons_loop iupac_rev (PyFloat fzero) (lit 0.8) [] (Some (PyInt 10))
      [[("T", 10)]] (mk_state (1 + 1) EmptyString ([] ++ [fzero])).
Proof.
  apply (zero_read_count_caught iupac_rev (PyFloat fzero) (lit 0.8) []
           (Some (PyInt 10)) (mk_state 1 EmptyString []) [("A", 9); ("G", 1)]
           [[("T", 10)]]
           [("A", fdiv (exact_int 9) (exact_int 10));
            ("G", fdiv (exact_int 1) (exact_int 10))] 9).
  - reflexivity.
  - vm_compute. reflexivity.
  - reflexivity.
  - vm_compute. discriminate.
Defined.

(** C1, as stated, fails: with a read count of zero and no override, a
    position holding none of the four bases has its fault caught and
    [0.0] recorded, but no symbol is emitted for it. *)
Lemma zero_read_count_emits_no_symbol :
  build_cons_seq iupac_rev [[("N", 5)]] (PyInt 0) (lit 0.8) None 1 None
  = Ok (EmptyString, [fzero]).
Proof.
  vm_compute. reflexivity.
Qed.

(** ** One symbol per position *)

Lemma get_Some_In {V : Type} (d : dict V) (k : string) (v : V) :
  get d k = Some v -> In (k, v) d.
Proof.
  induction d as [|[k' v'] d IH]; simpl; [discriminate|].
  destruct (String.eqb k' k) eqn:E.
  - apply String.eqb_eq in E. intros H; inversion H; subst. now left.
  - intros H. right. now apply IH.
Qed.

Lemma is_base_single (base : string) :
  is_base base = true -> String.length base = 1%nat.
Proof.
  unfold is_base. intros H.
  repeat (apply orb_true_iff in H; destruct H as [H|H]);
    apply String.eqb_eq in H; subst; reflexivity.
Qed.

Lemma insert_str_perm (x : string) (l : list string) :
  Permutation (insert_str x l) (x :: l).
Proof.
  induction l as [|y l IH]; simpl; [reflexivity|].
  destruct (String.ltb y x); [|reflexivity].
  rewrite IH. apply perm_swap.
Qed.

Lemma sorted_str_perm (l : list string) : Permutation (sorted_str l) l.
Proof.
  induction l as [|x l IH]; simpl; [reflexivity|].
  rewrite insert_str_perm. now apply perm_skip.
Qed.

Lemma In_firstn {A : Type} (n : nat) (l : list A) (x : A) :
  In x (firstn n l) -> In x l.
Proof.
  intros H. rewrite <- (firstn_skipn n l). apply in_or_app. now left.
Qed.

Lemma select_bases_incl (cons_dict : dict float) (thr : float) :
  incl (select_bases cons_dict thr) (keys cons_dict).
Proof.
  unfold select_bases.
  destruct (select_loop_prefix thr (sorted_cons_dict cons_dict) [] fzero)
    as [k [_ [Hsel _]]].
  rewrite Hsel. simpl. intros base Hin. unfold keys in *.
  apply in_map_iff in Hin. destruct Hin as [entry [Hfst Hin]].
  apply In_firstn in Hin.
  apply (Permutation_in _ (sorted_desc_perm snd fltb cons_dict)) in Hin.
  apply in_map_iff. now exists entry.
Qed.

Lemma single_char (s : string) :
  String.length s = 1%nat -> exists c, s = String c EmptyString.
Proof.
  destruct s as [|c [|c' s]]; simpl; intros H; try discriminate. now exists c.
Qed.

Lemma cons_props_bases (count_dict : dict Z) (read_count : number)
    (max_line_count : option number) (cons_dict : dict float) (max_count : Z) :
  cons_props count_dict read_count max_line_count [] 0
    = Ok (cons_dict, max_count) ->
  Forall (fun base => is_base base = true) (keys cons_dict).
Proof.
  intros Hprops. apply Forall_forall. intros base Hin. unfold keys in Hin.
  apply in_map_iff in Hin. destruct Hin as [[b p] [Hb Hin]]. simpl in Hb; subst.
  destruct (cons_props_entries _ _ _ _ _ _ _ Hprops _ _ Hin) as [[] | [H _]].
  exact H.
Qed.

Section SymbolFacts.
Variable registry : dict string.
Hypothesis Hregistry : single_symbols registry.
Variable read_count : number.
Hypothesis Hnonzero : is_zero read_count = false.
Variable cons_threshold : float.
Variable do_not_include : list Z.
Variable max_line_count : option number.

(** What the [try] body appends is one symbol, and it does not fault on a
    division. *)
Lemma try_body_symbol (cons_dict : dict float) (max_count : Z) (seq : string) :
  Forall (fun base => is_base base = true) (keys cons_dict) ->
  match try_body registry cons_dict max_count read_count cons_threshold seq with
  | Ok (_, seq') => exists c, seq' = append seq (String c EmptyString)
  | Raise e => e <> ZeroDivisionError
  end.
Proof.
  intros Hbases. unfold try_body.
  pose proof (truediv_nonzero max_count read_count Hnonzero) as Hdiv.
  destruct (truediv (PyInt max_count) read_count) as [max_prop|e];
    simpl; [|congruence].
  set (cons_bases := sorted_str (select_bases cons_dict cons_threshold)).
  assert (Hin : forall base, In base cons_bases ->
                  exists c, base = String c EmptyString).
  { intros base Hb. apply single_char, is_base_single.
    apply (Permutation_in _ (sorted_str_perm _)) in Hb.
    apply select_bases_incl in Hb.
    rewrite Forall_forall in Hbases. now apply Hbases. }
  assert (Hreg : match (amb_base <- getitem registry (join "," cons_bases) ;;
                        Ok (append seq amb_base)) with
                 | Ok seq' => exists c, seq' = append seq (String c EmptyString)
                 | Raise e => e <> ZeroDivisionError
                 end).
  { unfold getitem.
    destruct (get registry (join "," cons_bases)) as [symbol|] eqn:Hget; simpl.
    - apply get_Some_In, Hregistry, single_char in Hget.
      destruct Hget as [c ->]. now exists c.
    - discriminate. }
  unfold append_symbol.
  destruct cons_bases as [|base [|base' more]].
  - destruct (_ <- _ ;; _); simpl; exact Hreg.
  - simpl. destruct (Hin base) as [c ->]; [now left|]. now exists c.
  - destruct (_ <- _ ;; _); simpl; exact Hreg.
Qed.

Lemma position_symbol (st st' : loop_state) (count_dict : dict Z) :
  position registry read_count cons_threshold do_not_include max_line_count
    st count_dict = Ok st' ->
  counter st' = counter st + 1
  /\ exists c : ascii,
       cons_seq st' = append (cons_seq st) (String c EmptyString)
       /\ (in_list (counter st) do_not_include = true -> c = "N"%char).
Proof.
  unfold position.
  destruct (in_list (counter st) do_not_include) eqn:Hgap.
  - intros E; inversion E; subst; simpl. split; [reflexivity|].
    exists "N"%char. split; reflexivity.
  - destruct (cons_props count_dict read_count max_line_count [] 0)
      as [[cons_dict max_count]|e] eqn:Hprops; simpl; [|discriminate].
    pose proof (try_body_symbol cons_dict max_count (cons_seq st)
                  (cons_props_bases _ _ _ _ _ Hprops)) as Hbody.
    destruct (try_body registry cons_dict max_count read_count cons_threshold
                (cons_seq st)) as [[max_prop seq']|e].
    + intros E; inversion E; subst; simpl. split; [reflexivity|].
      destruct Hbody as [c Hc]. exists c. split; [exact Hc | discriminate].
    + destruct e; try discriminate. congruence.
Qed.

Lemma append_assoc (s1 s2 s3 : string) :
  append (append s1 s2) s3 = append s1 (append s2 s3).
Proof.
  induction s1 as [|c s1 IH]; simpl; [reflexivity | now rewrite IH].
Qed.

(** The loop appends one symbol per position, ["N"] at the forced gaps. *)
Lemma cons_loop_symbols (cons_list : list (dict Z)) :
  forall st st',
    cons_loop registry read_count cons_threshold do_not_include max_line_count
      cons_list st = Ok st' ->
    exists symbols : list ascii,
      List.length symbols = List.length cons_list
      /\ cons_seq st' = append (cons_seq st) (string_of_list_ascii symbols)
      /\ forall i : nat,
           (i < List.length cons_list)%nat ->
           in_list (counter st + Z.of_nat i) do_not_include = true ->
           nth_error symbols i = Some "N"%char.
Proof.
  induction cons_list as [|count_dict rest IH]; intros st st'; simpl.
  - intros E; inversion E; subst. exists []. simpl.
    repeat split; [| intros i Hi; lia].
    clear. induction (cons_seq st') as [|c s IH]; simpl; congruence.
  - destruct (position registry read_count cons_threshold do_not_include
                max_line_count st count_dict) as [st1|e] eqn:Hpos;
      simpl; [|discriminate].
    intros Hloop.
    destruct (position_symbol _ _ _ Hpos) as [Hcounter [c [Hseq Hgap]]].
    destruct (IH _ _ Hloop) as [symbols [Hlen [Hseq' Hgaps]]].
    exists (c :: symbols). simpl. repeat split.
    + now rewrite Hlen.
    + rewrite Hseq', Hseq, append_assoc. reflexivity.
    + intros [|i] Hi Hin; simpl.
      * rewrite Z.add_0_r in Hin. now rewrite Hgap.
      * apply Hgaps; [lia|]. rewrite Hcounter.
        replace (counter st + 1 + Z.of_nat i) with (counter st + Z.of_nat (S i))
          by lia.
        exact Hin.
Qed.

End SymbolFacts.

Lemma length_string_of_list_ascii (l : list ascii) :
  String.length (string_of_list_ascii l) = List.length l.
Proof.
  induction l as [|c l IH]; simpl; [reflexivity | now rewrite IH].
Qed.

Lemma get_string_of_list_ascii (l : list ascii) :
  forall i, String.get i (string_of_list_ascii l) = nth_error l i.
Proof.
  induction l as [|c l IH]; intros [|i]; simpl; try reflexivity. apply IH.
Qed.

(** C2 (amended): with a total read count other than zero and a registry
    of single symbols, whenever the resolver returns, its consensus string
    has one symbol per position of the conservation table, and that symbol
    is [N] at every forced-gap position. *)
Theorem consensus_length (registry : dict string) (cons_list : list (dict Z))
    (read_count : number) (cons_threshold : float)
    (do_not_include : option (list Z)) (counter : Z)
    (max_line_count : option number) (seq : string) (confs : list float) :
  single_symbols registry ->
  is_zero read_count = false ->
  build_cons_seq registry cons_list read_count cons_threshold do_not_include
    counter max_line_count = Ok (seq, confs) ->
  String.length seq = List.length cons_list
  /\ forall i : nat,
       (i < List.length cons_list)%nat ->
       in_list (counter + Z.of_nat i) (gap_list do_not_include) = true ->
       String.get i seq = Some "N"%char.
Proof.
  intros Hreg Hz. unfold build_cons_seq. fold (gap_list do_not_include).
  destruct (cons_loop registry read_count cons_threshold
              (gap_list do_not_include) max_line_count cons_list
              (mk_state counter EmptyString [])) as [st|e] eqn:Hloop;
    simpl; [|discriminate].
  intros E; inversion E; subst; clear E.
  destruct (cons_loop_symbols registry Hreg read_count Hz cons_threshold
              (gap_list do_not_include) max_line_count cons_list _ _ Hloop)
    as [symbols [Hlen [Hseq Hgaps]]].
  simpl in Hseq, Hgaps. rewrite Hseq. split.
  - now rewrite length_string_of_list_ascii.
  - intros i Hi Hin. rewrite get_string_of_list_ascii. now apply Hgaps.
Qed.

Lemma consensus_length_witness :
  String.length "ANR" = List.length [[("A", 9); ("G", 1)]; [("T", 10)]; [("G", 5); ("A", 5)]]
  /\ String.get 1 "ANR" = Some "N"%char.
Proof.
  assert (Hreg : single_symbols iupac_rev).
  { intros key symbol Hin. simpl in Hin.
    repeat (destruct Hin as [Hin|Hin]; [inversion Hin; reflexivity|]).
    contradiction. }
  destruct (consensus_length iupac_rev
              [[("A", 9); ("G", 1)]; [("T", 10)]; [("G", 5); ("A", 5)]]
              (PyInt 10) (lit 0.8) (Some [2]) 1 None "ANR"
              [lit 0.9; lit 0.5] Hreg eq_refl) as [Hlen Hgap].
  - vm_compute. reflexivity.
  - split; [exact Hlen|]. apply (Hgap 1%nat); [simpl; lia | reflexivity].
Defined.

(** C2, as stated, fails: on the table of an empty file the read count is
    [0.0], both faults are caught and the consensus string is empty although
    the table has two positions. *)
Lemma consensus_shorter_than_table :
  build_mcp_cons_dict_list [] 2 = Ok [[]; []]
  /\ build_cons_seq iupac_rev [[]; []] (PyFloat fzero) (lit 0.8) None 1 None
     = Ok (EmptyString, [fzero; fzero])
  /\ String.length EmptyString <> List.length [([] : dict Z); []].
Proof.
  repeat split; try (vm_compute; reflexivity). simpl. discriminate.
Qed.

(** ** Positions without any of the four bases *)

Lemma cons_props_no_base (read_count : number) (max_line_count : option number)
    (count_dict : dict Z) :
  (forall base count, In (base, count) count_dict -> is_base base = false) ->
  forall (acc : dict float) (mc : Z),
    cons_props count_dict read_count max_line_count acc mc = Ok (acc, mc).
Proof.
  induction count_dict as [|[b c] rest IH]; intros Hno acc mc; simpl.
  - reflexivity.
  - rewrite (Hno b c) by now left. simpl.
    apply IH. intros base count Hin. apply (Hno base count). now right.
Qed.

(** C9 (amended): at a position that is not a forced gap, whose count
    mapping holds none of A, T, C, G and whose total read count, the
    divisor of the confidence also when an override is supplied, is not
    zero, the resolver looks the empty string up in the ambiguity registry
    and, the registry having no such key, raises the lookup error: no
    symbol is emitted and the call does not return. *)
Theorem no_base_position_raises (registry : dict string)
    (pre post : list (dict Z)) (count_dict : dict Z) (read_count : number)
    (cons_threshold : float) (do_not_include : option (list Z)) (counter0 : Z)
    (max_line_count : option number) (st : loop_state) :
  cons_loop registry read_count cons_threshold (gap_list do_not_include)
    max_line_count pre (mk_state counter0 EmptyString []) = Ok st ->
  in_list (counter st) (gap_list do_not_include) = false ->
  (forall base count, In (base, count) count_dict -> is_base base = false) ->
  is_zero read_count = false ->
  get registry EmptyString = None ->
  build_cons_seq registry (pre ++ count_dict :: post) read_count
    cons_threshold do_not_include counter0 max_line_count
  = Raise (KeyError EmptyString).
Proof.
  intros Hpre Hgap Hno Hz Hreg. unfold build_cons_seq.
  fold (gap_list do_not_include).
  rewrite cons_loop_app, Hpre. simpl.
  unfold position. rewrite Hgap.
  rewrite (cons_props_no_base _ _ _ Hno). simpl.
  unfold try_body.
  destruct (truediv_zero_count read_count Hz) as [max_prop ->]. simpl.
  unfold getitem. rewrite Hreg. reflexivity.
Qed.

Lemma no_base_position_raises_witness :
  build_cons_seq iupac_rev ([[("A", 9); ("G", 1)]] ++ [("N", 10)] :: [[("T", 10)]])
    (PyInt 10) (lit 0.8) None 1 None
  = Raise (KeyError EmptyString).
Proof.
  apply (no_base_position_raises iupac_rev [[("A", 9); ("G", 1)]] [[("T", 10)]]
           [("N", 10)] (PyInt 10) (lit 0.8) None 1 None
           (mk_state 2 "A" [lit 0.9])).
  - vm_compute. reflexivity.
  - reflexivity.
  - intros base count [H|[]]. inversion H; subst. reflexivity.
  - reflexivity.
  - reflexivity.
Defined.

(** C9, as stated, fails: with the override 300000 the denominator of
    the proportions is not zero, yet with a read count of zero the fault
    of the confidence division is caught at a position holding none of the
    four bases and the call returns, without any lookup. *)
Lemma no_base_position_returns :
  is_zero (denominator (PyInt 0) (Some (PyInt 300000))) = false
  /\ is_base "N" = false
  /\ build_cons_seq iupac_rev [[("N", 3)]] (PyInt 0) (lit 0.8) None 1
       (Some (PyInt 300000))
     = Ok (EmptyString, [fzero]).
Proof.
  repeat split; vm_compute; reflexivity.
Qed.

(** ** The confidence and the override *)

(** C3: on the table [[{A: 9, G: 1}]] with read count 10 and the override
    20, the proportions are computed against the override (0.45 and 0.05)
    while the confidence reported for the position is [9 / 10 = 0.9], not
    [9 / 20 = 0.45]. *)
Theorem confidence_ignores_override :
  cons_props [("A", 9); ("G", 1)] (PyInt 10) (Some (PyInt 20)) [] 0
    = Ok ([("A", lit 0.45); ("G", lit 0.05)], 9)
  /\ build_cons_seq iupac_rev [[("A", 9); ("G", 1)]] (PyInt 10) (lit 0.4) None
       1 (Some (PyInt 20))
     = Ok ("A", [lit 0.9])
  /\ truediv (PyInt 9) (denominator (PyInt 10) (Some (PyInt 20)))
     = Ok (lit 0.45)
  /\ lit 0.9 <> lit 0.45.
Proof.
  repeat split; try (vm_compute; reflexivity).
  vm_compute. discriminate.
Qed.

(** ** The read count *)

Lemma signed_as_false_nonneg (f : float) :
  signed_as false f -> fleb fzero f = true.
Proof.
  destruct f as [s|s| |s m e]; simpl; intros H; try contradiction; subst;
    reflexivity.
Qed.

Lemma digits2_pos_lower (p : positive) :
  2 ^ (Zpos (digits2_pos p) - 1) <= Zpos p.
Proof.
  induction p as [p IH|p IH|]; simpl digits2_pos.
  - rewrite Pos2Z.inj_succ.
    replace (Z.succ (Zpos (digits2_pos p)) - 1)
      with (Z.succ (Zpos (digits2_pos p) - 1)) by lia.
    rewrite Z.pow_succ_r by lia. lia.
  - rewrite Pos2Z.inj_succ.
    replace (Z.succ (Zpos (digits2_pos p)) - 1)
      with (Z.succ (Zpos (digits2_pos p) - 1)) by lia.
    rewrite Z.pow_succ_r by lia. lia.
  - simpl. lia.
Qed.

Lemma digits2_pos_bound (p : positive) (k : Z) :
  Zpos p < 2 ^ k -> Zpos (digits2_pos p) <= k.
Proof.
  intros H. pose proof (digits2_pos_lower p) as Hl.
  destruct (Z_le_gt_dec (Zpos (digits2_pos p)) k) as [Hle|Hgt]; [exact Hle|].
  exfalso.
  assert (Hk : 0 <= k).
  { destruct (Z_le_gt_dec 0 k); [assumption|].
    rewrite Z.pow_neg_r in H by lia. lia. }
  assert (2 ^ k <= 2 ^ (Zpos (digits2_pos p) - 1))
    by (apply Z.pow_le_mono_r; lia).
  lia.
Qed.

(** Shifting a mantissa to the left adds to its number of digits. *)
Lemma digits2_shift (p : positive) (k : Z) :
  0 <= k ->
  exists r, Zpos r = Zpos p * 2 ^ k
            /\ Zpos (digits2_pos r) = Zpos (digits2_pos p) + k.
Proof.
  intros Hk. revert k Hk. apply natlike_ind.
  - exists p. split; [simpl; lia | lia].
  - intros k Hk [r [Hr Hd]]. exists (xO r). split.
    + rewrite Z.pow_succ_r by exact Hk. rewrite Pos2Z.inj_xO. lia.
    + simpl digits2_pos. rewrite Pos2Z.inj_succ. lia.
Qed.

Lemma div_eucl_exact (a b : Z) :
  0 < b -> Z.div_eucl (a * b) b = (a, 0).
Proof.
  intros Hb. pose proof (Z_div_mod (a * b) b ltac:(lia)) as H.
  destruct (Z.div_eucl (a * b) b) as [q r]. destruct H as [H1 H2].
  assert (q = a) by nia. subst. f_equal. lia.
Qed.

Lemma fdiv_by_4 (p : positive) :
  Zpos (digits2_pos p) <= 53 ->
  exists q, Zpos q = Zpos p * 2 ^ (53 - Zpos (digits2_pos p))
            /\ fdiv (S754_finite false p 0) (S754_finite false 4 0)
               = S754_finite false q (Zpos (digits2_pos p) - 55).
Proof.
  intros Hd. set (d := Zpos (digits2_pos p)) in *.
  assert (Hd1 : 1 <= d) by (subst d; lia).
  destruct (digits2_shift p (53 - d)) as [q [Hq Hqd]]; [lia|]. fold d in Hqd.
  exists q. split; [exact Hq|].
  unfold fdiv, SFdiv, SFdiv_core_binary.
  change (Zdigits2 (Zpos p)) with d.
  change (Zdigits2 4) with 3.
  replace (Z.min (fexp prec emax (d + 0 - (3 + 0))) (0 - 0)) with (d - 56)
    by (unfold fexp, SpecFloat.emin, prec, emax; lia).
  replace (0 - 0 - (d - 56)) with (56 - d) by lia.
  destruct (56 - d) as [|s|s] eqn:Hs; try lia.
  rewrite <- Hs. clear s Hs.
  rewrite Z.shiftl_mul_pow2 by lia.
  replace (Zpos p * 2 ^ (56 - d)) with (Zpos (xO q) * 4).
  2:{ rewrite Pos2Z.inj_xO, Hq.
      replace (56 - d) with (53 - d + 3) by lia.
      rewrite Z.pow_add_r by lia. change (2 ^ 3) with 8. lia. }
  change IntDef.Z.div_eucl with Z.div_eucl.
  rewrite div_eucl_exact by lia.
  change (new_location 4 0) with loc_Exact.
  unfold binary_round_aux, shr_fexp.
  change (Zdigits2 (Zpos (xO q))) with (Zpos (Pos.succ (digits2_pos q))).
  rewrite Pos2Z.inj_succ, Hqd.
  replace (fexp prec emax (Z.succ (d + (53 - d)) + (d - 56)) - (d - 56)) with 1
    by (unfold fexp, SpecFloat.emin, prec, emax; lia).
  cbn [shr shr_record_of_loc iter_pos shr_1 fst snd shr_m loc_of_shr_record round_nearest_even].
  change (round_nearest_even (Z.pos q)
            (if false || false then loc_Inexact Lt else loc_Exact))
    with (Zpos q).
  change (Zdigits2 (Zpos q)) with (Zpos (digits2_pos q)). rewrite Hqd.
  replace (fexp prec emax (d + (53 - d) + (d - 56 + 1)) - (d - 56 + 1)) with 0
    by (unfold fexp, SpecFloat.emin, prec, emax; lia).
  cbn [shr shr_m xorb].
  replace (d - 56 + 1 <=? emax - prec) with true
    by (symmetry; apply Z.leb_le; unfold emax, prec; lia).
  f_equal. lia.
Qed.


(** Below [2 ^ 53] the quotient by 4 is exact. *)
Lemma int_truediv_by_4 (n : Z) :
  0 <= n < 2 ^ 53 ->
  exists f,
    int_truediv n 4 = Ok f
    /\ exactly f n 4
    /\ (float_is_integer f = true <-> n mod 4 = 0).
Proof.
  intros [Hn0 Hn]. unfold int_truediv. simpl (4 =? 0).
  destruct n as [|p|p]; [| |lia].
  - exists (S754_zero false). repeat split; reflexivity.
  - pose proof (digits2_pos_bound p 53 Hn) as Hd.
    destruct (fdiv_by_4 p Hd) as [q [Hq Hf]].
    set (d := Zpos (digits2_pos p)) in *.
    cbn [exact_int]. rewrite Hf. exists (S754_finite false q (d - 55)).
    assert (Hpow : 2 ^ (- (d - 55)) = 2 ^ (53 - d) * 4).
    { replace (- (d - 55)) with (53 - d + 2) by lia.
      rewrite Z.pow_add_r by lia. reflexivity. }
    assert (HK : 0 < 2 ^ (53 - d)) by (apply Z.pow_pos_nonneg; lia).
    split; [reflexivity|]. split.
    + unfold exactly.
      replace (0 <=? d - 55) with false by (symmetry; apply Z.leb_gt; lia).
      rewrite Hpow, Hq. lia.
    + unfold float_is_integer.
      replace (0 <=? d - 55) with false by (symmetry; apply Z.leb_gt; lia).
      rewrite Hpow, Hq, orb_false_l.
      replace (Zpos p * 2 ^ (53 - d)) with (2 ^ (53 - d) * Zpos p) by lia.
      rewrite Z.mul_mod_distr_l by lia.
      rewrite Z.eqb_eq. split; intros H; nia.
Qed.

Lemma int_of_digits_nonneg (s : string) :
  isdigit s = true -> 0 <= int_of_digits s.
Proof.
  unfold isdigit, int_of_digits.
  assert (H : forall l acc,
             forallb is_digit l = true -> 0 <= acc ->
             0 <= fold_left
                    (fun acc c => 10 * acc + (Z.of_nat (nat_of_ascii c) - 48))
                    l acc).
  { induction l as [|c l IH]; intros acc Hl Hacc; cbn [fold_left];
      [exact Hacc|].
    cbn [forallb] in Hl. apply andb_true_iff in Hl. destruct Hl as [Hc Hl].
    apply IH; [exact Hl|]. unfold is_digit in Hc. cbv zeta in Hc.
    apply andb_true_iff in Hc. destruct Hc as [Hc1 Hc2].
    apply Z.leb_le in Hc1. lia. }
  destruct (list_ascii_of_string s) as [|c l]; [discriminate|].
  intros Hd. apply H; [exact Hd | lia].
Qed.

(** C8 (amended): when the counting step yields a digit string, the read
    count of record-based (fasta) input is that non-negative integer; the
    read count of line-based (fastq) input is the float obtained by
    dividing the line count by 4, which is never negative, fails only by
    overflow and, for a line count below [2 ^ 53], is exactly the quotient:
    an integer value only when the line count is a multiple of 4. *)
Theorem read_count_value (zcat_wc_l grep_c : string -> string)
    (read_path : string) (n : Z) :
  (isdigit (strip_by is_space_byte (grep_c read_path)) = true ->
   n = int_of_digits (strip_by is_space_byte (grep_c read_path)) ->
   get_read_count zcat_wc_l grep_c read_path "fasta" = Ok (PyInt n)
   /\ 0 <= n)
  /\ (isdigit (strip_by is_space_byte (zcat_wc_l read_path)) = true ->
      n = int_of_digits (strip_by is_space_byte (zcat_wc_l read_path)) ->
      get_read_count zcat_wc_l grep_c read_path "fastq"
        = (f <- truediv (PyInt n) (PyInt 4) ;; Ok (PyFloat f))
      /\ (forall v,
            get_read_count zcat_wc_l grep_c read_path "fastq" = Ok v ->
            nonnegative v)
      /\ (forall e,
            get_read_count zcat_wc_l grep_c read_path "fastq" = Raise e ->
            e = OverflowError)
      /\ (n < 2 ^ 53 ->
          exists f,
            get_read_count zcat_wc_l grep_c read_path "fastq" = Ok (PyFloat f)
            /\ exactly f n 4
            /\ (is_integer (PyFloat f) = true <-> n mod 4 = 0))).
Proof.
  split.
  - intros Hdigit ->. unfold get_read_count. simpl. rewrite Hdigit. simpl.
    split; [reflexivity | now apply int_of_digits_nonneg].
  - intros Hdigit Hn.
    assert (Hget : get_read_count zcat_wc_l grep_c read_path "fastq"
                   = (f <- truediv (PyInt n) (PyInt 4) ;; Ok (PyFloat f))).
    { unfold get_read_count. simpl. rewrite Hdigit, <- Hn. reflexivity. }
    assert (Hnn : 0 <= n) by (subst n; now apply int_of_digits_nonneg).
    rewrite Hget. split; [reflexivity|]. simpl truediv. repeat split.
    + intros v. destruct (int_truediv n 4) as [f|e] eqn:Hdiv; simpl;
        [|discriminate].
      intros E; inversion E; subst v. simpl.
      apply int_truediv_signed in Hdiv.
      replace (int_sign n) with false in Hdiv
        by (symmetry; apply Z.ltb_ge; exact Hnn).
      now apply signed_as_false_nonneg.
    + intros e. unfold int_truediv. simpl (4 =? 0).
      destruct (fdiv (exact_int n) (exact_int 4)); simpl;
        intros E; inversion E; reflexivity.
    + intros Hlt. destruct (int_truediv_by_4 n (conj Hnn Hlt))
        as [f [Hf [Hex Hint]]].
      exists f. rewrite Hf. simpl. repeat split; tauto.
Qed.

Lemma read_count_value_witness :
  get_read_count (fun _ => " 8 ") (fun _ => "3") "reads.fastq.gz" "fastq"
  = (f <- truediv (PyInt 8) (PyInt 4) ;; Ok (PyFloat f)).
Proof.
  apply (read_count_value (fun _ => " 8 ") (fun _ => "3") "reads.fastq.gz" 8);
    reflexivity.
Defined.

(** C8, as stated, fails: a fastq file of six lines has the read count
    [1.5], which is not an integer. *)
Lemma read_count_not_integer :
  get_read_count (fun _ => "6") (fun _ => "0") "reads.fastq.gz" "fastq"
  = Ok (PyFloat (lit 1.5))
  /\ is_integer (PyFloat (lit 1.5)) = false.
Proof.
  split; vm_compute; reflexivity.
Qed.

(** * Further properties of the toolkit *)

(** ** The ambiguity regex query *)

Lemma append_nil_r (s : string) : append s EmptyString = s.
Proof.
  induction s as [|c s IH]; simpl; [reflexivity | now rewrite IH].
Qed.

Lemma query_loop_body (registry : dict string) (primer : list ascii) :
  Forall (translatable registry) primer ->
  forall query,
    query_loop registry primer query
    = Ok (append query (query_body registry primer)).
Proof.
  induction primer as [|c rest IH]; intros Hall query; simpl.
  - now rewrite append_nil_r.
  - inversion Hall as [|? ? Hc Hrest]; subst.
    unfold translatable, expansion_of in Hc. unfold expansion_of.
    destruct (is_concrete (String c EmptyString)).
    + rewrite (IH Hrest). now rewrite append_assoc.
    + unfold getitem.
      destruct (get registry (String c EmptyString)) as [e|]; [|congruence].
      simpl. rewrite (IH Hrest). now rewrite append_assoc.
Qed.

Lemma query_loop_unknown (registry : dict string) (pre : list ascii)
    (c : ascii) (post : list ascii) :
  Forall (translatable registry) pre ->
  expansion_of registry c = None ->
  forall query,
    query_loop registry (pre ++ c :: post) query
    = Raise (KeyError (String c EmptyString)).
Proof.
  induction pre as [|a pre IH]; intros Hpre Hc query; simpl.
  - unfold expansion_of in Hc.
    destruct (is_concrete (String c EmptyString)); [discriminate|].
    unfold getitem. now rewrite Hc.
  - inversion Hpre as [|? ? Ha Hpre']; subst.
    unfold translatable, expansion_of in Ha.
    destruct (is_concrete (String a EmptyString)); [now apply IH|].
    unfold getitem.
    destruct (get registry (String a EmptyString)) as [e|]; [|congruence].
    simpl. now apply IH.
Qed.

(** X1: a primer is translated character by character: when every
    character is a concrete base or a key of the registry, the query is
    the concatenation of the bases and of the registry expansions, wrapped
    as [(.*...){e<=1}]; otherwise the call raises the lookup error of the
    first character that is neither. *)
Theorem query_builder_translation (registry : dict string) (primer : string) :
  (Forall (translatable registry) (list_ascii_of_string primer) ->
   primer_regex_query_builder registry primer
   = Ok (append "(.*"
           (append (query_body registry (list_ascii_of_string primer))
              "){e<=1}")))
  /\ (forall pre c post,
        list_ascii_of_string primer = pre ++ c :: post ->
        Forall (translatable registry) pre ->
        expansion_of registry c = None ->
        primer_regex_query_builder registry primer
        = Raise (KeyError (String c EmptyString))).
Proof.
  unfold primer_regex_query_builder. split.
  - intros Hall. rewrite (query_loop_body registry _ Hall). reflexivity.
  - intros pre c post Hsplit Hpre Hc.
    rewrite Hsplit, (query_loop_unknown registry pre c post Hpre Hc).
    reflexivity.
Qed.

Lemma query_builder_translation_witness :
  primer_regex_query_builder [("R", "[AG]"); ("N", "[ACTG]")] "ARX"
  = Raise (KeyError "X").
Proof.
  apply (query_builder_translation [("R", "[AG]"); ("N", "[ACTG]")] "ARX")
    with (pre := ["A"%char; "R"%char]) (post := []).
  - reflexivity.
  - repeat constructor; vm_compute; discriminate.
  - reflexivity.
Defined.

Lemma query_body_concrete (registry : dict string) (primer : list ascii) :
  Forall (fun c => is_concrete (String c EmptyString) = true) primer ->
  query_body registry primer = string_of_list_ascii primer.
Proof.
  induction primer as [|c rest IH]; intros Hall; simpl; [reflexivity|].
  inversion Hall as [|? ? Hc Hrest]; subst.
  unfold expansion_of. rewrite Hc. simpl. now rewrite IH.
Qed.

(** X2: a primer made of the four concrete bases only passes through
    unchanged, whatever the registry holds: the query is the primer itself
    between [(.*] and [){e<=1}]. *)
Theorem query_builder_concrete (registry : dict string) (primer : string) :
  Forall (fun c => is_concrete (String c EmptyString) = true)
    (list_ascii_of_string primer) ->
  primer_regex_query_builder registry primer
  = Ok (append "(.*" (append primer "){e<=1}")).
Proof.
  intros Hall. unfold primer_regex_query_builder.
  rewrite query_loop_body.
  - simpl. rewrite (query_body_concrete registry _ Hall).
    now rewrite string_of_list_ascii_of_string.
  - eapply Forall_impl; [|exact Hall].
    intros c Hc. unfold translatable, expansion_of. rewrite Hc. discriminate.
Qed.

Lemma query_builder_concrete_witness :
  primer_regex_query_builder [] "GATTACA" = Ok "(.*GATTACA){e<=1}".
Proof.
  apply (query_builder_concrete [] "GATTACA").
  repeat constructor.
Defined.

(** ** Substring test *)

Lemma prefix_append (p s : string) :
  String.prefix p s = true <-> exists b, s = append p b.
Proof.
  revert s. induction p as [|c p IH]; intros s; simpl.
  - destruct s; split; intros _; eauto.
  - destruct s as [|c' s]; simpl.
    + split; [discriminate | intros [b Hb]; discriminate].
    + destruct (ascii_dec c c') as [->|Hne].
      * rewrite IH. split; intros [b Hb]; exists b; congruence.
      * split; [discriminate | intros [b Hb]; congruence].
Qed.

(** [contains sub s] holds exactly when [sub] occurs in [s]. *)
Lemma contains_occurs (sub s : string) :
  contains sub s = true <-> exists a b, s = append a (append sub b).
Proof.
  induction s as [|c s IH]; cbn [contains].
  - rewrite orb_false_r, prefix_append. split.
    + intros [b Hb]. exists EmptyString, b. exact Hb.
    + intros [a [b Hb]]. destruct a; simpl in Hb; [eauto | discriminate].
  - rewrite orb_true_iff, IH, prefix_append. split.
    + intros [[b Hb] | [a [b Hb]]].
      * exists EmptyString, b. exact Hb.
      * exists (String c a), b. simpl. now rewrite Hb.
    + intros [a [b Hb]]. destruct a as [|c' a]; simpl in Hb.
      * left. now exists b.
      * right. exists a, b. congruence.
Qed.

(** ** Subunit coordinates *)





(** A missing input leaves two empty outputs and no [RNA-counts]. *)
Example subunits_missing_input :
  GetSubunitsCoords.main
    (fun _ => Ok ("absent.fa", "LSU_rRNA", "SSU_rRNA"))
    (fun _ => None)
    ["get_subunits_coords"; "-i"; "absent.fa"; "-l"; "LSU_rRNA"; "-s";
     "SSU_rRNA"]
  = GetSubunitsCoords.mk_run false (Some []) (Some []) None
      (Some (GetSubunitsCoords.FileNotFoundError "absent.fa")).
Proof.
  vm_compute. reflexivity.
Qed.

(** ** The order of strings *)

Lemma ascii_compare_refl (a : ascii) : Ascii.compare a a = Eq.
Proof.
  unfold Ascii.compare. apply N.compare_refl.
Qed.

Lemma ascii_compare_lt_trans (a b c : ascii) :
  Ascii.compare a b = Lt -> Ascii.compare b c = Lt -> Ascii.compare a c = Lt.
Proof.
  unfold Ascii.compare. rewrite !N.compare_lt_iff. lia.
Qed.

Lemma string_compare_lt_trans (s1 : string) :
  forall s2 s3,
    String.compare s1 s2 = Lt -> String.compare s2 s3 = Lt ->
    String.compare s1 s3 = Lt.
Proof.
  induction s1 as [|a s1 IH]; intros [|b s2] [|c s3]; simpl;
    try discriminate; try reflexivity.
  destruct (Ascii.compare a b) eqn:Hab; try discriminate;
    destruct (Ascii.compare b c) eqn:Hbc; try discriminate; intros H1 H2.
  - apply Ascii.compare_eq_iff in Hab, Hbc. subst.
    rewrite ascii_compare_refl. now apply (IH s2).
  - apply Ascii.compare_eq_iff in Hab. subst. now rewrite Hbc.
  - apply Ascii.compare_eq_iff in Hbc. subst. now rewrite Hab.
  - now rewrite (ascii_compare_lt_trans a b c).
Qed.

Lemma string_ltb_leb (x y : string) :
  String.ltb x y = true -> String.leb x y = true.
Proof.
  unfold String.ltb, String.leb.
  destruct (String.compare x y); intros H; try discriminate; reflexivity.
Qed.

Lemma string_not_ltb_leb (x y : string) :
  String.ltb y x = false -> String.leb x y = true.
Proof.
  unfold String.ltb, String.leb. rewrite (String.compare_antisym x y).
  destruct (String.compare y x); simpl; intros H; try discriminate;
    reflexivity.
Qed.

Lemma string_compare_refl (s : string) : String.compare s s = Eq.
Proof.
  induction s as [|c s IH]; simpl; [reflexivity|].
  now rewrite ascii_compare_refl.
Qed.

Lemma string_leb_trans (x y z : string) :
  String.leb x y = true -> String.leb y z = true -> String.leb x z = true.
Proof.
  unfold String.leb.
  destruct (String.compare x y) eqn:Hxy; [| |discriminate];
    (destruct (String.compare y z) eqn:Hyz; [| |discriminate]); intros _ _.
  - apply String.compare_eq_iff in Hxy. apply String.compare_eq_iff in Hyz.
    subst. now rewrite string_compare_refl.
  - apply String.compare_eq_iff in Hxy. subst. now rewrite Hyz.
  - apply String.compare_eq_iff in Hyz. subst. now rewrite Hxy.
  - now rewrite (string_compare_lt_trans x y z).
Qed.

Lemma string_leb_neq_ltb (x y : string) :
  String.leb x y = true -> x <> y -> String.ltb x y = true.
Proof.
  unfold String.leb, String.ltb.
  destruct (String.compare x y) eqn:H; simpl; try congruence.
  apply String.compare_eq_iff in H. congruence.
Qed.

(** ** Sorting strings *)

Lemma insert_str_sorted (x : string) (l : list string) :
  StronglySorted (fun a b => String.leb a b = true) l ->
  StronglySorted (fun a b => String.leb a b = true) (insert_str x l).
Proof.
  intros Hs. induction l as [|y l IH]; simpl.
  - constructor; constructor.
  - inversion Hs as [|? ? Hs' Hall]; subst.
    destruct (String.ltb y x) eqn:E.
    + constructor; [now apply IH|].
      apply (Permutation_Forall (Permutation_sym (insert_str_perm x l))).
      constructor; [now apply string_ltb_leb | exact Hall].
    + apply string_not_ltb_leb in E.
      constructor; [exact Hs|]. constructor; [exact E|].
      eapply Forall_impl; [|exact Hall].
      intros z Hz. now apply (string_leb_trans x y z).
Qed.

Lemma sorted_str_sorted (l : list string) :
  StronglySorted (fun a b => String.leb a b = true) (sorted_str l).
Proof.
  induction l as [|x l IH]; simpl; [constructor | now apply insert_str_sorted].
Qed.

(** Two sorted lists with the same elements are the same list. *)
Lemma sorted_unique (l1 : list string) :
  forall l2,
    StronglySorted (fun a b => String.leb a b = true) l1 ->
    StronglySorted (fun a b => String.leb a b = true) l2 ->
    Permutation l1 l2 -> l1 = l2.
Proof.
  induction l1 as [|x l1 IH]; intros l2 H1 H2 Hp.
  - apply Permutation_nil in Hp. now subst.
  - destruct l2 as [|y l2].
    + apply Permutation_sym, Permutation_nil in Hp. discriminate.
    + inversion H1 as [|? ? H1' Hall1]; subst.
      inversion H2 as [|? ? H2' Hall2]; subst.
      assert (Hxy : x = y).
      { assert (Hx : In x (y :: l2))
          by (apply (Permutation_in _ Hp); now left).
        assert (Hy : In y (x :: l1))
          by (apply (Permutation_in _ (Permutation_sym Hp)); now left).
        destruct Hx as [-> | Hx]; [reflexivity|].
        destruct Hy as [-> | Hy]; [reflexivity|].
        rewrite Forall_forall in Hall1, Hall2.
        apply String.leb_antisym; [now apply Hall1 | now apply Hall2]. }
      subst y. f_equal. apply IH; try assumption.
      now apply Permutation_cons_inv in Hp.
Qed.

Lemma sorted_str_permutation (l1 l2 : list string) :
  Permutation l1 l2 -> sorted_str l1 = sorted_str l2.
Proof.
  intros Hp. apply sorted_unique; try apply sorted_str_sorted.
  rewrite (sorted_str_perm l1), (sorted_str_perm l2). exact Hp.
Qed.

Lemma sorted_str_strict (l : list string) :
  NoDup l ->
  StronglySorted (fun a b => String.ltb a b = true) (sorted_str l).
Proof.
  intros Hnd.
  assert (Hnd' : NoDup (sorted_str l))
    by (apply (Permutation_NoDup (Permutation_sym (sorted_str_perm l))), Hnd).
  pose proof (sorted_str_sorted l) as Hs.
  induction Hs as [|x l' Hs IH Hall]; [constructor|].
  inversion Hnd' as [|? ? Hnotin Hnd'']; subst.
  constructor; [now apply IH|].
  rewrite Forall_forall in *. intros y Hy.
  apply string_leb_neq_ltb; [now apply Hall|].
  intros ->. contradiction.
Qed.

(** ** Sample paths *)

Lemma set_add_In (s : list string) (x y : string) :
  In x (set_add s y) <-> In x s \/ x = y.
Proof.
  unfold set_add. destruct (existsb (String.eqb y) s) eqn:E.
  - apply existsb_exists in E. destruct E as [z [Hz Heq]].
    apply String.eqb_eq in Heq. subst z.
    split; [now left | intros [H | ->]; assumption].
  - rewrite in_app_iff. simpl. intuition.
Qed.

Lemma set_add_NoDup (s : list string) (y : string) :
  NoDup s -> NoDup (set_add s y).
Proof.
  intros Hnd. unfold set_add. destruct (existsb (String.eqb y) s) eqn:E.
  - exact Hnd.
  - apply NoDup_app; [exact Hnd | repeat constructor; intros [] |].
    intros z Hz [<- | []].
    assert (Hex : existsb (String.eqb y) s = true)
      by (apply existsb_exists; exists y; split;
          [exact Hz | apply String.eqb_refl]).
    congruence.
Qed.

Lemma sample_set_spec (dir : string) (files : list string) :
  forall acc,
    NoDup acc ->
    let sample_set :=
      fold_left (fun sample_set file => set_add sample_set (sample_path dir file))
        files acc in
    NoDup sample_set
    /\ forall p, In p sample_set
                 <-> In p acc
                     \/ exists file, In file files /\ p = sample_path dir file.
Proof.
  induction files as [|file files IH]; intros acc Hnd; simpl.
  - split; [exact Hnd|]. intros p. split; [now left|].
    intros [H | [file [[] _]]]. exact H.
  - destruct (IH (set_add acc (sample_path dir file))
                (set_add_NoDup _ _ Hnd)) as [Hnd' Hin].
    split; [exact Hnd'|]. intros p. rewrite Hin, set_add_In. split.
    + intros [[H | ->] | [f [Hf Hp]]].
      * now left.
      * right. exists file. split; [now left | reflexivity].
      * right. exists f. split; [now right | exact Hp].
    + intros [H | [f [[<- | Hf] Hp]]].
      * left. now left.
      * left. now right.
      * right. exists f. now split.
Qed.

(** X4: the sample paths are returned in strictly ascending order, hence
    without repetition, and they are exactly the paths [dir/prefix] where
    [prefix] is the part before the first underscore of a listed file whose
    name holds [.fastq] and one of [_1] and [_2]. *)
Theorem sample_paths_sorted_members (listdir : list string) (dir : string) :
  StronglySorted (fun a b => String.ltb a b = true)
    (split_dir_into_sample_paths listdir dir)
  /\ forall p,
       In p (split_dir_into_sample_paths listdir dir)
       <-> exists file,
             In file listdir
             /\ is_read_file file = true
             /\ p = sample_path dir file.
Proof.
  unfold split_dir_into_sample_paths.
  destruct (sample_set_spec dir (filter is_read_file listdir) [] (NoDup_nil _))
    as [Hnd Hin].
  split; [now apply sorted_str_strict|].
  intros p. split.
  - intros Hp. apply (Permutation_in _ (sorted_str_perm _)) in Hp.
    apply Hin in Hp. destruct Hp as [[] | [file [Hf Hp]]].
    apply filter_In in Hf. exists file. tauto.
  - intros [file [Hf [Hread Hp]]].
    apply (Permutation_in _ (Permutation_sym (sorted_str_perm _))).
    apply Hin. right. exists file. split; [|exact Hp].
    apply filter_In. now split.
Qed.

Lemma sample_paths_sorted_members_witness :
  In "reads/ERR1" (split_dir_into_sample_paths
                     ["ERR1_2.fastq.gz"; "ERR1_1.fastq.gz"; "README"] "reads").
Proof.
  apply (sample_paths_sorted_members
           ["ERR1_2.fastq.gz"; "ERR1_1.fastq.gz"; "README"] "reads").
  exists "ERR1_1.fastq.gz". split; [right; left; reflexivity|].
  split; vm_compute; reflexivity.
Defined.

(** X5: the result does not depend on the order in which the directory is
    listed. *)
Theorem sample_paths_listing_order (listdir listdir' : list string)
    (dir : string) :
  Permutation listdir listdir' ->
  split_dir_into_sample_paths listdir dir
  = split_dir_into_sample_paths listdir' dir.
Proof.
  intros Hp. unfold split_dir_into_sample_paths.
  destruct (sample_set_spec dir (filter is_read_file listdir) [] (NoDup_nil _))
    as [Hnd Hin].
  destruct (sample_set_spec dir (filter is_read_file listdir') [] (NoDup_nil _))
    as [Hnd' Hin'].
  apply sorted_str_permutation, NoDup_Permutation; try assumption.
  intros p. rewrite Hin, Hin'.
  assert (Hfiles : forall file,
             In file (filter is_read_file listdir)
             <-> In file (filter is_read_file listdir')).
  { intros file. rewrite !filter_In. split; intros [H1 H2]; split; try exact H2.
    - exact (Permutation_in _ Hp H1).
    - exact (Permutation_in _ (Permutation_sym Hp) H1). }
  split; (intros [[] | [file [Hf Hq]]]; right; exists file;
          split; [now apply Hfiles | exact Hq]).
Qed.

Lemma sample_paths_listing_order_witness :
  split_dir_into_sample_paths ["b_2.fastq.gz"; "a_1.fastq.gz"; "b_1.fastq.gz"]
    "reads"
  = split_dir_into_sample_paths ["a_1.fastq.gz"; "b_2.fastq.gz"; "b_1.fastq.gz"]
      "reads".
Proof.
  apply sample_paths_listing_order. apply perm_swap.
Defined.

(** ** The confidences of the resolver *)

Lemma cons_props_max (read_count : number) (max_line_count : option number)
    (items : dict Z) :
  forall acc mc cons_dict max_count,
    cons_props items read_count max_line_count acc mc
      = Ok (cons_dict, max_count) ->
    max_count
    = fold_left
        (fun m entry => if is_base (fst entry) then Z.max m (snd entry) else m)
        items mc.
Proof.
  induction items as [|[b c] rest IH]; intros acc mc cons_dict max_count;
    cbn [cons_props fold_left fst snd].
  - intros E. now inversion E.
  - destruct (is_base b); cbn [negb].
    + destruct (match max_line_count with
                | Some m => truediv (PyInt c) m
                | None => truediv (PyInt c) read_count
                end) as [p|e]; cbn [bind]; [|discriminate].
      intros E. apply IH in E. rewrite E. f_equal.
      destruct (mc <? c) eqn:Hlt;
        [apply Z.ltb_lt in Hlt | apply Z.ltb_ge in Hlt]; lia.
    + apply IH.
Qed.

Lemma try_body_confidence (registry : dict string) (cons_dict : dict float)
    (max_count : Z) (read_count : number) (thr : float) (seq : string) :
  match try_body registry cons_dict max_count read_count thr seq with
  | Ok (max_prop, _) => max_prop = confidence read_count max_count
  | Raise ZeroDivisionError => fzero = confidence read_count max_count
  | Raise _ => True
  end.
Proof.
  unfold try_body, confidence.
  destruct (truediv (PyInt max_count) read_count) as [max_prop|e]; cbn [bind].
  - destruct (append_symbol registry seq _) as [seq'|e] eqn:Hsym; cbn [bind].
    + reflexivity.
    + unfold append_symbol, getitem in Hsym.
      destruct (sorted_str (select_bases cons_dict thr)) as [|b [|b' l]];
        try discriminate;
        destruct (get registry _); cbn [bind] in Hsym; inversion Hsym; exact I.
  - destruct e; exact I || reflexivity.
Qed.

Section ConfidenceFacts.
Variable registry : dict string.
Variable read_count : number.
Variable cons_threshold : float.
Variable do_not_include : list Z.
Variable max_line_count : option number.

Lemma position_confidence (st st' : loop_state) (count_dict : dict Z) :
  position registry read_count cons_threshold do_not_include max_line_count
    st count_dict = Ok st' ->
  counter st' = counter st + 1
  /\ cons_confs st'
     = cons_confs st
       ++ (if in_list (counter st) do_not_include then []
           else [confidence read_count (max_base_count count_dict)]).
Proof.
  unfold position.
  destruct (in_list (counter st) do_not_include).
  - intros E; inversion E; subst; simpl. now rewrite app_nil_r.
  - destruct (cons_props count_dict read_count max_line_count [] 0)
      as [[cons_dict max_count]|e] eqn:Hprops; cbn [bind]; [|discriminate].
    apply cons_props_max in Hprops. fold (max_base_count count_dict) in Hprops.
    subst max_count.
    pose proof (try_body_confidence registry cons_dict
                  (max_base_count count_dict) read_count cons_threshold
                  (cons_seq st)) as Hconf.
    destruct (try_body registry cons_dict (max_base_count count_dict) read_count
                cons_threshold (cons_seq st)) as [[max_prop seq']|e].
    + intros E; inversion E; subst st'; simpl. now rewrite Hconf.
    + destruct e; try discriminate.
      intros E; inversion E; subst st'; simpl. now rewrite Hconf.
Qed.

Lemma cons_loop_confidences (cons_list : list (dict Z)) :
  forall st st',
    cons_loop registry read_count cons_threshold do_not_include max_line_count
      cons_list st = Ok st' ->
    counter st' = counter st + Z.of_nat (List.length cons_list)
    /\ cons_confs st'
       = cons_confs st
         ++ map (fun count_dict =>
                   confidence read_count (max_base_count count_dict))
              (non_gap_positions do_not_include (counter st) cons_list).
Proof.
  induction cons_list as [|count_dict rest IH]; intros st st';
    cbn [cons_loop non_gap_positions].
  - intros E; inversion E; subst. cbn [map List.length].
    rewrite app_nil_r. split; [lia | reflexivity].
  - destruct (position registry read_count cons_threshold do_not_include
                max_line_count st count_dict) as [st1|e] eqn:Hpos;
      cbn [bind]; [|discriminate].
    intros Hloop.
    destruct (position_confidence _ _ _ Hpos) as [Hc Hconfs].
    destruct (IH _ _ Hloop) as [Hc' Hconfs'].
    rewrite Hc', Hconfs', Hconfs, Hc. cbn [List.length].
    split; [lia|].
    destruct (in_list (counter st) do_not_include); cbn [map];
      rewrite <- app_assoc; reflexivity.
Qed.

End ConfidenceFacts.

(** X6: whenever the resolver returns, its confidence sequence holds one
    entry for each position that is not a forced gap, in order: the largest
    count among the A, T, C, G entries of the position (0 when none is
    positive) divided by the read count, and [0.0] when that division
    faults. *)
Theorem confidence_values (registry : dict string)
    (cons_list : list (dict Z)) (read_count : number) (cons_threshold : float)
    (do_not_include : option (list Z)) (counter : Z)
    (max_line_count : option number) (seq : string) (confs : list float) :
  build_cons_seq registry cons_list read_count cons_threshold do_not_include
    counter max_line_count = Ok (seq, confs) ->
  confs
  = map (fun count_dict => confidence read_count (max_base_count count_dict))
      (non_gap_positions (gap_list do_not_include) counter cons_list).
Proof.
  unfold build_cons_seq. fold (gap_list do_not_include).
  destruct (cons_loop registry read_count cons_threshold
              (gap_list do_not_include) max_line_count cons_list
              (mk_state counter EmptyString [])) as [st|e] eqn:Hloop;
    cbn [bind]; [|discriminate].
  intros E; inversion E; subst; clear E.
  destruct (cons_loop_confidences _ _ _ _ _ _ _ _ Hloop) as [_ H].
  exact H.
Qed.

Lemma confidence_values_witness :
  [lit 0.9; lit 0.5]
  = map (fun count_dict => confidence (PyInt 10) (max_base_count count_dict))
      (non_gap_positions (gap_list (Some [2])) 1
         [[("A", 9); ("G", 1)]; [("T", 10)]; [("N", 7); ("G", 5); ("A", 5)]]).
Proof.
  apply (confidence_values iupac_rev
           [[("A", 9); ("G", 1)]; [("T", 10)]; [("N", 7); ("G", 5); ("A", 5)]]
           (PyInt 10) (lit 0.8) (Some [2]) 1 None "ANR").
  vm_compute. reflexivity.
Defined.

(** X7: the confidences do not depend on the threshold, on the override or
    on the registry: two calls on the same table, read count, forced gaps
    and counter that both return report the same confidence sequence. *)
Theorem confidences_independent (registry registry' : dict string)
    (cons_list : list (dict Z)) (read_count : number)
    (cons_threshold cons_threshold' : float)
    (do_not_include : option (list Z)) (counter : Z)
    (max_line_count max_line_count' : option number)
    (seq seq' : string) (confs confs' : list float) :
  build_cons_seq registry cons_list read_count cons_threshold do_not_include
    counter max_line_count = Ok (seq, confs) ->
  build_cons_seq registry' cons_list read_count cons_threshold' do_not_include
    counter max_line_count' = Ok (seq', confs') ->
  confs = confs'.
Proof.
  unfold build_cons_seq. fold (gap_list do_not_include).
  destruct (cons_loop registry read_count cons_threshold
              (gap_list do_not_include) max_line_count cons_list
              (mk_state counter EmptyString [])) as [st|e] eqn:Hloop;
    cbn [bind]; [|discriminate].
  destruct (cons_loop registry' read_count cons_threshold'
              (gap_list do_not_include) max_line_count' cons_list
              (mk_state counter EmptyString [])) as [st'|e] eqn:Hloop';
    cbn [bind]; [|discriminate].
  intros E E'; inversion E; inversion E'; subst; clear E E'.
  destruct (cons_loop_confidences _ _ _ _ _ _ _ _ Hloop) as [_ H].
  destruct (cons_loop_confidences _ _ _ _ _ _ _ _ Hloop') as [_ H'].
  rewrite H, H'. reflexivity.
Qed.

Lemma confidences_independent_witness :
  [lit 0.9; lit 1.0] = [lit 0.9; lit 1.0].
Proof.
  apply (confidences_independent iupac_rev iupac_rev
           [[("A", 9); ("G", 1)]; [("T", 10)]] (PyInt 10) (lit 0.8) (lit 0.95)
           None 1 None (Some (PyInt 20)) "AT" "RT").
  - vm_compute. reflexivity.
  - vm_compute. reflexivity.
Defined.

Lemma max_base_fold (items : dict Z) :
  forall m,
    let m' :=
      fold_left
        (fun m entry => if is_base (fst entry) then Z.max m (snd entry) else m)
        items m in
    m <= m'
    /\ (forall base count,
          In (base, count) items -> is_base base = true -> count <= m')
    /\ (m' = m \/ exists base, In (base, m') items /\ is_base base = true).
Proof.
  induction items as [|[b c] rest IH]; intros m; cbn [fold_left fst snd].
  - repeat split; [lia | intros base count [] | now left].
  - destruct (is_base b) eqn:Hb.
    + destruct (IH (Z.max m c)) as [Hle [Hub Hatt]]. repeat split.
      * lia.
      * intros base count [E | Hin] Hbase.
        -- inversion E; subst. lia.
        -- exact (Hub base count Hin Hbase).
      * destruct Hatt as [Heq | [base [Hin Hbase]]].
        -- destruct (Z.max_spec m c) as [[_ Hmax] | [_ Hmax]].
           ++ right. exists b. split; [left; congruence | exact Hb].
           ++ left. congruence.
        -- right. exists base. split; [now right | exact Hbase].
    + destruct (IH m) as [Hle [Hub Hatt]]. repeat split.
      * exact Hle.
      * intros base count [E | Hin] Hbase.
        -- inversion E; subst. congruence.
        -- exact (Hub base count Hin Hbase).
      * destruct Hatt as [Heq | [base [Hin Hbase]]]; [now left|].
        right. exists base. split; [now right | exact Hbase].
Qed.

(** X8: the largest count kept for a position is never negative, bounds
    the count of every A, T, C or G entry of the position, and is either 0
    or the count of one of them: the counts of other symbols never enter
    it. *)
Theorem max_count_of_bases (count_dict : dict Z) (read_count : number)
    (max_line_count : option number) (cons_dict : dict float) (max_count : Z) :
  cons_props count_dict read_count max_line_count [] 0
    = Ok (cons_dict, max_count) ->
  0 <= max_count
  /\ (forall base count,
        In (base, count) count_dict -> is_base base = true ->
        count <= max_count)
  /\ (max_count = 0
      \/ exists base, In (base, max_count) count_dict /\ is_base base = true).
Proof.
  intros Hprops. apply cons_props_max in Hprops. subst max_count.
  apply max_base_fold.
Qed.

Lemma max_count_of_bases_witness :
  0 <= 5
  /\ (5 = 0 \/ exists base, In (base, 5) [("N", 7); ("G", 5); ("A", 3)]
                            /\ is_base base = true).
Proof.
  destruct (max_count_of_bases [("N", 7); ("G", 5); ("A", 3)] (PyInt 10) None
              [("G", fdiv (exact_int 5) (exact_int 10));
               ("A", fdiv (exact_int 3) (exact_int 10))] 5)
    as [H0 [_ Hatt]].
  - vm_compute. reflexivity.
  - split; [exact H0 | exact Hatt].
Defined.

(** ** The resolver on a table in two parts *)

Section FrameFacts.
Variable registry : dict string.
Variable read_count : number.
Variable cons_threshold : float.
Variable do_not_include : list Z.
Variable max_line_count : option number.

Lemma append_symbol_frame (s seq : string) (cons_bases : list string) :
  append_symbol registry (append s seq) cons_bases
  = match append_symbol registry seq cons_bases with
    | Ok seq' => Ok (append s seq')
    | Raise e => Raise e
    end.
Proof.
  unfold append_symbol.
  destruct cons_bases as [|b [|b' l]];
    try (destruct (getitem registry _); cbn [bind]);
    try rewrite append_assoc; reflexivity.
Qed.

Lemma try_body_frame (cons_dict : dict float) (max_count : Z) (s seq : string) :
  try_body registry cons_dict max_count read_count cons_threshold (append s seq)
  = match try_body registry cons_dict max_count read_count cons_threshold seq
    with
    | Ok (max_prop, seq') => Ok (max_prop, append s seq')
    | Raise e => Raise e
    end.
Proof.
  unfold try_body.
  destruct (truediv (PyInt max_count) read_count); cbn [bind]; [|reflexivity].
  rewrite append_symbol_frame.
  destruct (append_symbol registry seq _); reflexivity.
Qed.

Lemma position_frame (s : string) (cf : list float) (st : loop_state)
    (count_dict : dict Z) :
  position registry read_count cons_threshold do_not_include max_line_count
    (prepend s cf st) count_dict
  = match position registry read_count cons_threshold do_not_include
            max_line_count st count_dict with
    | Ok st' => Ok (prepend s cf st')
    | Raise e => Raise e
    end.
Proof.
  unfold position, prepend. cbn [counter cons_seq cons_confs].
  destruct (in_list (counter st) do_not_include).
  - now rewrite append_assoc.
  - destruct (cons_props count_dict read_count max_line_count [] 0)
      as [[cons_dict max_count]|e]; cbn [bind]; [|reflexivity].
    rewrite try_body_frame.
    destruct (try_body registry cons_dict max_count read_count cons_threshold
                (cons_seq st)) as [[max_prop seq']|e].
    + cbn [counter cons_seq cons_confs]. now rewrite app_assoc.
    + destruct e; try reflexivity.
      cbn [counter cons_seq cons_confs]. now rewrite app_assoc.
Qed.

Lemma cons_loop_frame (s : string) (cf : list float)
    (cons_list : list (dict Z)) :
  forall st,
    cons_loop registry read_count cons_threshold do_not_include max_line_count
      cons_list (prepend s cf st)
    = match cons_loop registry read_count cons_threshold do_not_include
              max_line_count cons_list st with
      | Ok st' => Ok (prepend s cf st')
      | Raise e => Raise e
      end.
Proof.
  induction cons_list as [|count_dict rest IH]; intros st; cbn [cons_loop].
  - reflexivity.
  - rewrite position_frame.
    destruct (position registry read_count cons_threshold do_not_include
                max_line_count st count_dict); cbn [bind];
      [apply IH | reflexivity].
Qed.

Lemma cons_loop_all_gaps (cons_list : list (dict Z)) :
  forall st,
    (forall i : nat, (i < List.length cons_list)%nat ->
       in_list (counter st + Z.of_nat i) do_not_include = true) ->
    cons_loop registry read_count cons_threshold do_not_include max_line_count
      cons_list st
    = Ok (mk_state (counter st + Z.of_nat (List.length cons_list))
            (append (cons_seq st)
               (string_of_list_ascii
                  (repeat "N"%char (List.length cons_list))))
            (cons_confs st)).
Proof.
  induction cons_list as [|count_dict rest IH]; intros st Hgaps;
    cbn [cons_loop List.length repeat string_of_list_ascii].
  - rewrite append_nil_r, Z.add_0_r. now destruct st.
  - unfold position.
    replace (in_list (counter st) do_not_include) with true.
    2:{ symmetry. specialize (Hgaps 0%nat). rewrite Z.add_0_r in Hgaps.
        apply Hgaps. cbn [List.length]. lia. }
    cbn [bind]. rewrite IH.
    + cbn [counter cons_seq cons_confs]. rewrite append_assoc.
      f_equal. f_equal. lia.
    + intros i Hi. cbn [counter].
      replace (counter st + 1 + Z.of_nat i) with (counter st + Z.of_nat (S i))
        by lia.
      apply Hgaps. cbn [List.length]. lia.
Qed.

End FrameFacts.

(** X9: a table can be resolved in two parts: when the call on the first
    part returns, the call on the whole table gives what the call on the
    second part gives with the counter moved past the first part, behind
    the consensus and the confidences of the first part (and fails as that
    call fails). *)
Theorem build_cons_seq_app (registry : dict string)
    (cons_list1 cons_list2 : list (dict Z)) (read_count : number)
    (cons_threshold : float) (do_not_include : option (list Z)) (counter0 : Z)
    (max_line_count : option number) (seq1 : string) (confs1 : list float) :
  build_cons_seq registry cons_list1 read_count cons_threshold do_not_include
    counter0 max_line_count = Ok (seq1, confs1) ->
  build_cons_seq registry (cons_list1 ++ cons_list2) read_count cons_threshold
    do_not_include counter0 max_line_count
  = match build_cons_seq registry cons_list2 read_count cons_threshold
            do_not_include (counter0 + Z.of_nat (List.length cons_list1))
            max_line_count with
    | Ok (seq2, confs2) => Ok (append seq1 seq2, confs1 ++ confs2)
    | Raise e => Raise e
    end.
Proof.
  unfold build_cons_seq. fold (gap_list do_not_include).
  rewrite cons_loop_app.
  destruct (cons_loop registry read_count cons_threshold
              (gap_list do_not_include) max_line_count cons_list1
              (mk_state counter0 EmptyString [])) as [st1|e] eqn:Hloop;
    cbn [bind]; [|discriminate].
  intros E; inversion E; subst; clear E.
  destruct (cons_loop_confidences _ _ _ _ _ _ _ _ Hloop) as [Hc _].
  cbn [counter] in Hc.
  replace st1
    with (prepend (cons_seq st1) (cons_confs st1)
            (mk_state (counter0 + Z.of_nat (List.length cons_list1))
               EmptyString [])).
  2:{ unfold prepend. cbn [counter cons_seq cons_confs].
      rewrite append_nil_r, app_nil_r, <- Hc. now destruct st1. }
  rewrite cons_loop_frame.
  destruct (cons_loop registry read_count cons_threshold
              (gap_list do_not_include) max_line_count cons_list2
              (mk_state (counter0 + Z.of_nat (List.length cons_list1))
                 EmptyString [])) as [st2|e]; cbn [bind]; [|reflexivity].
  unfold prepend. cbn [counter cons_seq cons_confs].
  rewrite append_nil_r, app_nil_r. reflexivity.
Qed.

Lemma build_cons_seq_app_witness :
  build_cons_seq iupac_rev ([[("A", 9); ("G", 1)]] ++ [[("T", 10)]; [("N", 3)]])
    (PyInt 10) (lit 0.8) (Some [3]) 1 None
  = match build_cons_seq iupac_rev [[("T", 10)]; [("N", 3)]] (PyInt 10)
            (lit 0.8) (Some [3])
            (1 + Z.of_nat (List.length [[("A", 9); ("G", 1)]])) None with
    | Ok (seq2, confs2) => Ok (append "A" seq2, [lit 0.9] ++ confs2)
    | Raise e => Raise e
    end.
Proof.
  apply (build_cons_seq_app iupac_rev [[("A", 9); ("G", 1)]]
           [[("T", 10)]; [("N", 3)]] (PyInt 10) (lit 0.8) (Some [3]) 1 None
           "A" [lit 0.9]).
  vm_compute. reflexivity.
Defined.

(** X10: when every position of the table is a forced gap the resolver
    returns one [N] per position and no confidence, whatever the counts,
    the read count (zero included), the threshold, the override and the
    registry are. *)
Theorem all_gaps (registry : dict string) (cons_list : list (dict Z))
    (read_count : number) (cons_threshold : float)
    (do_not_include : option (list Z)) (counter0 : Z)
    (max_line_count : option number) :
  (forall i : nat, (i < List.length cons_list)%nat ->
     in_list (counter0 + Z.of_nat i) (gap_list do_not_include) = true) ->
  build_cons_seq registry cons_list read_count cons_threshold do_not_include
    counter0 max_line_count
  = Ok (string_of_list_ascii (repeat "N"%char (List.length cons_list)), []).
Proof.
  intros Hgaps. unfold build_cons_seq. fold (gap_list do_not_include).
  rewrite cons_loop_all_gaps by exact Hgaps. reflexivity.
Qed.

Lemma all_gaps_witness :
  build_cons_seq [] [[("A", 9)]; []; [("N", 1)]] (PyInt 0) (lit 0.8)
    (Some [4; 5; 3]) 3 (Some (PyInt 0))
  = Ok ("NNN", []).
Proof.
  apply (all_gaps [] [[("A", 9)]; []; [("N", 1)]] (PyInt 0) (lit 0.8)
           (Some [4; 5; 3]) 3 (Some (PyInt 0))).
  intros [|[|[|i]]] Hi; try reflexivity. simpl in Hi. lia.
Defined.

(** ** The counts of a base at a position *)

Lemma get_setitem {V : Type} (d : dict V) (k : string) (v : V) (k' : string) :
  get (setitem d k v) k' = if String.eqb k k' then Some v else get d k'.
Proof.
  induction d as [|[k0 v0] d IH]; cbn [setitem get].
  - reflexivity.
  - destruct (String.eqb k0 k) eqn:E0; cbn [get].
    + apply String.eqb_eq in E0. subst k0.
      destruct (String.eqb k k'); reflexivity.
    + rewrite IH. destruct (String.eqb k0 k') eqn:E1; [|reflexivity].
      apply String.eqb_eq in E1. subst k0.
      now rewrite String.eqb_sym, E0.
Qed.

Lemma keys_setitem {V : Type} (d : dict V) (k : string) (v : V) :
  keys (setitem d k v) = if existsb (String.eqb k) (keys d) then keys d
                         else keys d ++ [k].
Proof.
  unfold keys. induction d as [|[k0 v0] d IH]; cbn [setitem map existsb fst].
  - reflexivity.
  - rewrite (String.eqb_sym k k0).
    destruct (String.eqb k0 k); cbn [map fst orb]; [reflexivity|].
    rewrite IH. destruct (existsb (String.eqb k) (map fst d)); reflexivity.
Qed.

Lemma wf_setitem {V : Type} (d : dict V) (k : string) (v : V) :
  wf d -> wf (setitem d k v).
Proof.
  unfold wf. fold (keys d). fold (keys (setitem d k v)).
  rewrite keys_setitem. intros Hnd.
  destruct (existsb (String.eqb k) (keys d)) eqn:E; [exact Hnd|].
  apply NoDup_app; [exact Hnd | repeat constructor; intros [] |].
  intros z Hz [<- | []].
  assert (existsb (String.eqb k) (keys d) = true)
    by (apply existsb_exists; exists k; split;
        [exact Hz | apply String.eqb_refl]).
  congruence.
Qed.

Lemma total_app (d1 d2 : dict Z) : total (d1 ++ d2) = total d1 + total d2.
Proof.
  unfold total, values. induction d1 as [|[k v] d1 IH]; simpl; [reflexivity|].
  rewrite IH. lia.
Qed.

Lemma base_count_absent (done : dict Z) (mcp_len i : Z) (base : string) :
  existsb (has_base_at mcp_len i base) (keys done) = false ->
  base_count done mcp_len i base = 0.
Proof.
  unfold base_count, keys. induction done as [|[k v] done IH];
    cbn [map existsb filter fst]; [reflexivity|].
  intros H. apply orb_false_iff in H. destruct H as [Hk Hrest].
  rewrite Hk. now apply IH.
Qed.

Lemma counted_step (mcp_len i : Z) (done acc : dict Z) (mcp : string) (n : Z)
    (contributes : string -> bool) (acc' : dict Z) :
  counted mcp_len i done acc ->
  (forall base, has_base_at mcp_len i base mcp = contributes base) ->
  wf acc' ->
  (forall base,
     get acc' base
     = if contributes base
       then Some (match get acc base with Some c => c | None => 0 end + n)
       else get acc base) ->
  counted mcp_len i (done ++ [(mcp, n)]) acc'.
Proof.
  intros [Hwf Hget] Hhas Hwf' Hget'. split; [exact Hwf'|].
  intros base. rewrite Hget', Hget. unfold keys, base_count.
  rewrite map_app, existsb_app, filter_app, total_app.
  cbn [map existsb filter fst]. rewrite orb_false_r, Hhas.
  fold (keys done). fold (base_count done mcp_len i base).
  destruct (contributes base).
  - rewrite orb_true_r.
    destruct (existsb (has_base_at mcp_len i base) (keys done)) eqn:E.
    + unfold total; simpl. f_equal. lia.
    + rewrite (base_count_absent _ _ _ _ E). unfold total; simpl.
      f_equal. lia.
  - rewrite orb_false_r.
    destruct (existsb (has_base_at mcp_len i base) (keys done));
      [|reflexivity].
    unfold total; simpl. f_equal. lia.
Qed.

Lemma index_base_loop_counted (mcp_count_dict : dict Z) (mcp_len i : Z) :
  wf mcp_count_dict -> 0 <= i < mcp_len ->
  forall (entries done acc : dict Z),
    incl entries mcp_count_dict ->
    counted mcp_len i done acc ->
    exists m,
      index_base_loop mcp_count_dict mcp_len i (keys entries) acc = Ok m
      /\ counted mcp_len i (done ++ entries) m.
Proof.
  intros Hwf Hi entries.
  induction entries as [|[mcp n] entries IH]; intros done acc Hincl Hacc;
    cbn [keys map index_base_loop fst].
  - exists acc. now rewrite app_nil_r.
  - assert (Hin : In (mcp, n) mcp_count_dict) by (apply Hincl; now left).
    assert (Hrest : incl entries mcp_count_dict)
      by (intros x Hx; apply Hincl; now right).
    fold (keys entries).
    replace (done ++ (mcp, n) :: entries) with ((done ++ [(mcp, n)]) ++ entries)
      by (now rewrite <- app_assoc).
    destruct (len mcp <? mcp_len) eqn:Hlen.
    + apply IH; [exact Hrest|].
      apply (counted_step _ _ _ acc mcp n (fun _ => false)); try assumption.
      * intros base. unfold has_base_at. now rewrite Hlen.
      * apply Hacc.
      * reflexivity.
    + apply Z.ltb_ge in Hlen.
      destruct (index_in_range mcp i) as [b Hb]; [lia|].
      rewrite Hb; cbn [bind].
      unfold getitem. rewrite (get_In _ _ _ Hwf Hin); cbn [bind].
      apply IH; [exact Hrest|].
      apply (counted_step _ _ _ acc mcp n (String.eqb b)); try assumption.
      * intros base. unfold has_base_at. rewrite Hb.
        replace (len mcp <? mcp_len) with false
          by (symmetry; apply Z.ltb_ge; exact Hlen).
        reflexivity.
      * apply wf_setitem, Hacc.
      * intros base. unfold add_count. rewrite get_setitem.
        destruct (String.eqb b base) eqn:E; [|reflexivity].
        apply String.eqb_eq in E. now subst.
Qed.

Lemma positions_loop_each (mcp_count_dict : dict Z) (mcp_len : Z)
    (positions : list Z) :
  forall acc l,
    positions_loop mcp_count_dict mcp_len positions acc = Ok l ->
    exists ms,
      l = acc ++ ms
      /\ Forall2 (fun i m =>
                    index_base_loop mcp_count_dict mcp_len i
                      (keys mcp_count_dict) [] = Ok m) positions ms.
Proof.
  induction positions as [|i positions IH]; intros acc l; cbn [positions_loop].
  - intros E; inversion E; subst. exists []. now rewrite app_nil_r.
  - destruct (index_base_loop mcp_count_dict mcp_len i (keys mcp_count_dict) [])
      as [m|e] eqn:Hm; cbn [bind]; [|discriminate].
    intros Hl. destruct (IH _ _ Hl) as [ms [-> Hall]].
    exists (m :: ms). split; [now rewrite <- app_assoc|].
    constructor; assumption.
Qed.

Lemma Forall2_nth_error {A B : Type} (R : A -> B -> Prop) (l1 : list A)
    (l2 : list B) :
  Forall2 R l1 l2 ->
  forall n b, nth_error l2 n = Some b ->
    exists a, nth_error l1 n = Some a /\ R a b.
Proof.
  induction 1 as [|a b' l1 l2 Hab Hall IH]; intros [|n] b; simpl;
    try discriminate.
  - intros E; inversion E; subst. eauto.
  - apply IH.
Qed.

Lemma nth_error_range (n : Z) (k : nat) (i : Z) :
  nth_error (range n) k = Some i -> i = Z.of_nat k /\ 0 <= i < n.
Proof.
  unfold range. rewrite nth_error_map.
  destruct (nth_error (seq 0 (Z.to_nat n)) k) as [j|] eqn:E; [|discriminate].
  intros H; inversion H; subst.
  assert (Hlt : (k < List.length (seq 0 (Z.to_nat n)))%nat)
    by (apply nth_error_Some; congruence).
  rewrite length_seq in Hlt.
  apply nth_error_nth with (d := 0%nat) in E.
  rewrite seq_nth in E by exact Hlt. subst j. simpl. lia.
Qed.

(** X11: in the table the aggregator returns for a frequency table with
    distinct keys, the mapping of position [k] has distinct keys and holds
    a base exactly when a window of length at least [mcp_len] has it at
    offset [k]; its count is then the sum of the table counts of those
    windows. *)
Theorem position_base_counts (mcp_count_dict : dict Z) (mcp_len : Z)
    (mcp_cons_list : list (dict Z)) (k : nat) (index_base_dict : dict Z) :
  wf mcp_count_dict ->
  build_mcp_cons_dict_list mcp_count_dict mcp_len = Ok mcp_cons_list ->
  nth_error mcp_cons_list k = Some index_base_dict ->
  wf index_base_dict
  /\ forall base,
       get index_base_dict base
       = if existsb (has_base_at mcp_len (Z.of_nat k) base)
              (keys mcp_count_dict)
         then Some (base_count mcp_count_dict mcp_len (Z.of_nat k) base)
         else None.
Proof.
  intros Hwf Hbuild Hnth. unfold build_mcp_cons_dict_list in Hbuild.
  apply positions_loop_each in Hbuild.
  destruct Hbuild as [ms [-> Hall]]. cbn [app] in Hnth.
  destruct (Forall2_nth_error _ _ _ Hall _ _ Hnth) as [i [Hi Hloop]].
  apply nth_error_range in Hi. destruct Hi as [-> Hrange].
  destruct (index_base_loop_counted mcp_count_dict mcp_len (Z.of_nat k) Hwf
              Hrange mcp_count_dict [] [] (incl_refl _))
    as [m [Hm Hcounted]].
  - split; [constructor | reflexivity].
  - rewrite Hm in Hloop. inversion Hloop; subst. exact Hcounted.
Qed.

Lemma position_base_counts_witness :
  get [("T", 9); ("G", 1)] "T"
  = if existsb (has_base_at 3 (Z.of_nat 1) "T")
         (keys [("ATG", 5); ("GT", 4); ("CTC", 4); ("AGG", 1)])
    then Some (base_count [("ATG", 5); ("GT", 4); ("CTC", 4); ("AGG", 1)] 3
                 (Z.of_nat 1) "T")
    else None.
Proof.
  assert (Hwf : wf [("ATG", 5); ("GT", 4); ("CTC", 4); ("AGG", 1)]).
  { unfold wf; simpl. repeat constructor; simpl; intuition discriminate. }
  apply (position_base_counts [("ATG", 5); ("GT", 4); ("CTC", 4); ("AGG", 1)] 3
           [[("A", 6); ("C", 4)]; [("T", 9); ("G", 1)]; [("G", 6); ("C", 4)]]
           1 [("T", 9); ("G", 1)] Hwf).
  - vm_compute. reflexivity.
  - reflexivity.
Defined.

(** ** The windows counted by the prefix extractor *)

Lemma lines_loop_uncapped (prefix_len start : Z) (rev : bool)
    (file : list string) :
  forall i selected_lines,
    lines_loop prefix_len start rev None file i selected_lines
    = selected_lines
      ++ map (fun line => window prefix_len start rev (strip line))
           (sequence_lines_from file i).
Proof.
  induction file as [|line rest IH]; intros i sel;
    cbn [lines_loop sequence_lines_from].
  - cbn [map]. now rewrite app_nil_r.
  - rewrite IH. destruct (i mod 4 =? 1); cbn [app map].
    + now rewrite <- app_assoc.
    + reflexivity.
Qed.

Lemma firstn_exact {A : Type} (l1 l2 : list A) (n : nat) :
  List.length l1 = n -> firstn n (l1 ++ l2) = l1.
Proof.
  intros <-. rewrite firstn_app, Nat.sub_diag, firstn_all. cbn [firstn].
  apply app_nil_r.
Qed.

Lemma lines_loop_capped (prefix_len start : Z) (rev : bool) (m : Z)
    (file : list string) :
  forall i selected_lines,
    Z.of_nat (List.length selected_lines) <= m ->
    lines_loop prefix_len start rev (Some m) file i selected_lines
    = firstn (Z.to_nat (m + 1))
        (selected_lines
         ++ map (fun line => window prefix_len start rev (strip line))
              (sequence_lines_from file i)).
Proof.
  induction file as [|line rest IH]; intros i sel Hsel;
    cbn [lines_loop sequence_lines_from].
  - cbn [map]. rewrite app_nil_r. symmetry. apply firstn_all2. lia.
  - destruct (i mod 4 =? 1); cbn [app map].
    + destruct (m <? Z.of_nat (List.length (sel ++ [_]))) eqn:Hstop.
      * apply Z.ltb_lt in Hstop.
        rewrite length_app in Hstop. cbn [List.length] in Hstop.
        replace (sel ++ window prefix_len start rev (strip line)
                        :: map (fun line0 => window prefix_len start rev
                                               (strip line0))
                             (sequence_lines_from rest (i + 1)))
          with ((sel ++ [window prefix_len start rev (strip line)])
                ++ map (fun line0 => window prefix_len start rev (strip line0))
                     (sequence_lines_from rest (i + 1)))
          by (now rewrite <- app_assoc).
        symmetry. apply firstn_exact.
        rewrite length_app. cbn [List.length]. lia.
      * apply Z.ltb_ge in Hstop. rewrite IH by exact Hstop.
        now rewrite <- app_assoc.
    + replace (m <? Z.of_nat (List.length sel)) with false
        by (symmetry; apply Z.ltb_ge; exact Hsel).
      apply IH. exact Hsel.
Qed.

(** The lines the loop selects are the counted windows. *)
Lemma lines_loop_counted_windows (fastq : list string) (prefix_len start : Z)
    (rev : bool) (max_line_count : option Z) :
  (forall m, max_line_count = Some m -> 0 <= m) ->
  lines_loop prefix_len start rev max_line_count fastq 0 []
  = counted_windows fastq prefix_len start rev max_line_count.
Proof.
  intros Hcap. unfold counted_windows, windows.
  destruct max_line_count as [m|].
  - rewrite lines_loop_capped; [reflexivity|].
    cbn [List.length]. specialize (Hcap m eq_refl). lia.
  - now rewrite lines_loop_uncapped.
Qed.

(** ** The frequency table *)

Lemma get_add_count (d : dict Z) (k : string) (n : Z) (k' : string) :
  get (add_count d k n) k'
  = if String.eqb k k'
    then Some (match get d k with Some c => c | None => 0 end + n)
    else get d k'.
Proof.
  unfold add_count. apply get_setitem.
Qed.

Lemma count_into_counts (l : list string) :
  forall d,
    wf d ->
    wf (count_into l d)
    /\ forall w,
         get (count_into l d) w
         = if (count_occ string_dec l w =? 0)%nat then get d w
           else Some (match get d w with Some c => c | None => 0 end
                      + Z.of_nat (count_occ string_dec l w)).
Proof.
  induction l as [|x l IH]; intros d Hwf; cbn [count_into count_occ].
  - split; [exact Hwf | reflexivity].
  - destruct (IH (add_count d x 1) (wf_setitem d x _ Hwf)) as [Hwf' Hget].
    split; [exact Hwf'|]. intros w. rewrite Hget, get_add_count.
    destruct (string_dec x w) as [->|Hne].
    + rewrite String.eqb_refl. cbn [Nat.eqb].
      destruct (count_occ string_dec l w =? 0)%nat eqn:E.
      * apply Nat.eqb_eq in E. rewrite E. f_equal; lia.
      * f_equal; lia.
    + replace (String.eqb x w) with false
        by (symmetry; now apply String.eqb_neq).
      reflexivity.
Qed.

Lemma wf_permutation {V : Type} (d d' : dict V) :
  Permutation d d' -> wf d -> wf d'.
Proof.
  unfold wf. intros Hp. apply Permutation_NoDup. now apply Permutation_map.
Qed.

Lemma get_permutation {V : Type} (d d' : dict V) (k : string) :
  wf d -> Permutation d d' -> get d' k = get d k.
Proof.
  intros Hwf Hp. pose proof (wf_permutation d d' Hp Hwf) as Hwf'.
  destruct (get d k) as [v|] eqn:E.
  - apply get_Some_In in E. apply (Permutation_in _ Hp) in E.
    now apply get_In.
  - destruct (get d' k) as [v'|] eqn:E'; [|reflexivity].
    apply get_Some_In in E'. apply (Permutation_in _ (Permutation_sym Hp)) in E'.
    apply (get_In _ _ _ Hwf) in E'. congruence.
Qed.

Lemma insert_desc_counts (x : string * Z) (l : dict Z) :
  descending_counts l -> descending_counts (insert_desc snd Z.ltb x l).
Proof.
  unfold descending_counts. intros Hs.
  induction l as [|y l IH]; cbn [insert_desc].
  - constructor; constructor.
  - inversion Hs as [|? ? Hs' Hall]; subst.
    destruct (snd x <? snd y) eqn:E.
    + apply Z.ltb_lt in E. constructor; [now apply IH|].
      apply (Permutation_Forall
               (Permutation_sym (insert_desc_perm snd Z.ltb x l))).
      constructor; [lia | exact Hall].
    + apply Z.ltb_ge in E. constructor; [exact Hs|].
      constructor; [exact E|].
      eapply Forall_impl; [|exact Hall]. intros q Hq. simpl in Hq. lia.
Qed.

Lemma sorted_desc_counts (l : dict Z) :
  descending_counts (sorted_desc snd Z.ltb l).
Proof.
  induction l as [|x l IH]; cbn [sorted_desc].
  - constructor.
  - now apply insert_desc_counts.
Qed.

(** X12: the table of the prefix extractor has distinct keys and gives
    each window the number of times it occurs among the counted windows
    (all the records, or the first [m + 1] under a cap [m >= 0]); a window
    that does not occur is not a key. *)
Theorem fetch_mcp_counts (fastq : list string) (prefix_len start : Z)
    (rev : bool) (max_line_count : option Z) :
  (forall m, max_line_count = Some m -> 0 <= m) ->
  wf (fetch_mcp fastq prefix_len start rev max_line_count)
  /\ forall w,
       get (fetch_mcp fastq prefix_len start rev max_line_count) w
       = let n :=
           count_occ string_dec
             (counted_windows fastq prefix_len start rev max_line_count) w in
         if (n =? 0)%nat then None else Some (Z.of_nat n).
Proof.
  intros Hcap. unfold fetch_mcp, Counter.
  rewrite (lines_loop_counted_windows _ _ _ _ _ Hcap).
  destruct (count_into_counts
              (counted_windows fastq prefix_len start rev max_line_count) [])
    as [Hwf Hget]; [constructor|].
  pose proof (Permutation_sym (sorted_desc_perm snd Z.ltb
                (count_into
                   (counted_windows fastq prefix_len start rev max_line_count)
                   []))) as Hp.
  split; [exact (wf_permutation _ _ Hp Hwf)|].
  intros w. rewrite (get_permutation _ _ w Hwf Hp), Hget. cbn [get].
  destruct (count_occ string_dec _ w =? 0)%nat; reflexivity.
Qed.

Lemma fetch_mcp_counts_witness :
  get (fetch_mcp ["@r1"; "ATGC"; "+"; "IIII"; "@r2"; "GTGA"; "+"; "IIII";
                  "@r3"; "ATCC"; "+"; "IIII"; "@r4"; "ATAA"; "+"; "IIII"]
         2 1 false (Some 2)) "AT"
  = Some 2.
Proof.
  destruct (fetch_mcp_counts
              ["@r1"; "ATGC"; "+"; "IIII"; "@r2"; "GTGA"; "+"; "IIII";
               "@r3"; "ATCC"; "+"; "IIII"; "@r4"; "ATAA"; "+"; "IIII"]
              2 1 false (Some 2)) as [_ H].
  - intros m E. inversion E. lia.
  - rewrite H. vm_compute. reflexivity.
Defined.

(** X13: the table of the prefix extractor lists the windows by
    descending count, so that its first key is a most common window, and
    every count in it is at least 1. *)
Theorem fetch_mcp_descending (fastq : list string) (prefix_len start : Z)
    (rev : bool) (max_line_count : option Z) :
  descending_counts (fetch_mcp fastq prefix_len start rev max_line_count)
  /\ forall w n,
       In (w, n) (fetch_mcp fastq prefix_len start rev max_line_count) ->
       1 <= n.
Proof.
  unfold fetch_mcp, Counter. split; [apply sorted_desc_counts|].
  intros w n Hin.
  set (selected := lines_loop prefix_len start rev max_line_count fastq 0 [])
    in *.
  destruct (count_into_counts selected []) as [Hwf Hget]; [constructor|].
  apply (Permutation_in _ (sorted_desc_perm snd Z.ltb _)) in Hin.
  apply (get_In _ _ _ Hwf) in Hin. rewrite Hget in Hin. cbn [get] in Hin.
  destruct (count_occ string_dec selected w =? 0)%nat eqn:E; [discriminate|].
  apply Nat.eqb_neq in E. inversion Hin. lia.
Qed.

Lemma fetch_mcp_descending_witness :
  1 <= 2.
Proof.
  destruct (fetch_mcp_descending
              ["@r1"; "ATGC"; "+"; "IIII"; "@r2"; "GTGA"; "+"; "IIII";
               "@r3"; "ATCC"; "+"; "IIII"] 2 1 false None) as [_ H].
  apply (H "AT" 2). vm_compute. left. reflexivity.
Defined.

Lemma sequence_lines_records (file : list string) :
  forall i,
    Z.of_nat (List.length (sequence_lines_from file i))
    = sequence_records_from file i.
Proof.
  induction file as [|line rest IH]; intros i;
    cbn [sequence_lines_from sequence_records_from]; [reflexivity|].
  rewrite length_app, Nat2Z.inj_add, IH.
  destruct (i mod 4 =? 1); reflexivity.
Qed.

(** X14: without a record cap every record is counted: the counts of the
    table add up to the number of sequence lines of the file, which is
    [(n + 2) / 4] for a file of [n] lines. *)
Theorem fetch_mcp_uncapped_total (fastq : list string) (prefix_len start : Z)
    (rev : bool) :
  total (fetch_mcp fastq prefix_len start rev None)
  = Z.of_nat (List.length (sequence_lines_from fastq 0))
  /\ total (fetch_mcp fastq prefix_len start rev None)
     = (Z.of_nat (List.length fastq) + 2) / 4.
Proof.
  assert (H : total (fetch_mcp fastq prefix_len start rev None)
              = Z.of_nat (List.length (sequence_lines_from fastq 0))).
  { unfold fetch_mcp, Counter.
    rewrite total_sorted_desc, total_count_into, lines_loop_uncapped.
    cbn [app]. rewrite length_map. unfold total; simpl. lia. }
  split; [exact H|].
  rewrite H, sequence_lines_records.
  apply (sequence_records_length fastq).
Qed.

(** ** The length of a window *)

Lemma length_substring (s : string) :
  forall n m,
    String.length (substring n m s) = Nat.min m (String.length s - n).
Proof.
  induction s as [|c s IH]; intros [|n] [|m]; cbn [substring String.length];
    try reflexivity.
  - rewrite IH. cbn [Nat.sub]. rewrite Nat.sub_0_r. reflexivity.
  - rewrite IH. reflexivity.
  - rewrite IH. reflexivity.
Qed.

Lemma length_reversed (s : string) :
  String.length (reversed s) = String.length s.
Proof.
  unfold reversed.
  rewrite length_string_of_list_ascii, length_rev.
  rewrite <- (length_string_of_list_ascii (list_ascii_of_string s)).
  now rewrite string_of_list_ascii_of_string.
Qed.

Lemma len_slice (s : string) (a b : Z) :
  0 <= a <= b ->
  len (slice s a b) = Z.min (b - a) (Z.max 0 (len s - a)).
Proof.
  intros Hab. unfold slice, clamp, len. cbv zeta. rewrite length_substring.
  assert (Ha : (a <? 0) = false) by (apply Z.ltb_ge; lia).
  assert (Hb : (b <? 0) = false) by (apply Z.ltb_ge; lia).
  rewrite !Ha, !Hb. cbv iota. rewrite ?Ha, ?Hb. cbv iota.
  destruct (Z.of_nat (String.length s) <? a) eqn:Hla;
    destruct (Z.of_nat (String.length s) <? b) eqn:Hlb;
    try apply Z.ltb_lt in Hla; try apply Z.ltb_ge in Hla;
    try apply Z.ltb_lt in Hlb; try apply Z.ltb_ge in Hlb; lia.
Qed.

Lemma len_window (prefix_len start : Z) (rev : bool) (line : string) :
  1 <= start -> 0 <= prefix_len ->
  len (window prefix_len start rev line)
  = Z.min prefix_len (Z.max 0 (len line - (start - 1))).
Proof.
  intros Hs Hl. unfold window.
  destruct rev; cbn [negb]; rewrite len_slice by lia.
  - unfold len. rewrite length_reversed. f_equal. lia.
  - f_equal. lia.
Qed.

Lemma lines_loop_windows (prefix_len start : Z) (rev : bool)
    (max_line_count : option Z) (file : list string) :
  forall i selected_lines w,
    In w (lines_loop prefix_len start rev max_line_count file i selected_lines) ->
    In w selected_lines
    \/ exists line, In line file /\ w = window prefix_len start rev (strip line).
Proof.
  induction file as [|line rest IH]; intros i sel w; cbn [lines_loop].
  - now left.
  - set (sel' := if i mod 4 =? 1
                 then sel ++ [window prefix_len start rev (strip line)]
                 else sel).
    assert (Hsel' : In w sel' ->
              In w sel
              \/ exists line0, In line0 (line :: rest)
                               /\ w = window prefix_len start rev (strip line0)).
    { subst sel'. destruct (i mod 4 =? 1); [|now left].
      rewrite in_app_iff. intros [H | [<- | []]]; [now left|].
      right. exists line. split; [now left | reflexivity]. }
    destruct (match max_line_count with
              | Some m => m <? Z.of_nat (List.length sel')
              | None => false
              end); [exact Hsel'|].
    intros Hin. destruct (IH _ _ _ Hin) as [H | [line0 [Hl Hw]]].
    + now apply Hsel'.
    + right. exists line0. split; [now right | exact Hw].
Qed.

(** X15: with a start offset of at least 1 and a window length
    [prefix_len >= 0], the window of a line has [prefix_len] characters
    when the line reaches that far and the characters left from the offset
    on otherwise, without any error on short reads; no key of the
    frequency table is longer than [prefix_len]. *)
Theorem window_length (fastq : list string) (prefix_len start : Z)
    (rev : bool) (max_line_count : option Z) :
  1 <= start -> 0 <= prefix_len ->
  (forall line,
     len (window prefix_len start rev line)
     = Z.min prefix_len (Z.max 0 (len line - (start - 1))))
  /\ forall w n,
       In (w, n) (fetch_mcp fastq prefix_len start rev max_line_count) ->
       len w <= prefix_len.
Proof.
  intros Hs Hl. split; [intros line; now apply len_window|].
  intros w n Hin. unfold fetch_mcp, Counter in Hin.
  apply (Permutation_in _ (sorted_desc_perm snd Z.ltb _)) in Hin.
  set (selected := lines_loop prefix_len start rev max_line_count fastq 0 [])
    in *.
  destruct (count_into_counts selected []) as [Hwf Hget]; [constructor|].
  apply (get_In _ _ _ Hwf) in Hin. rewrite Hget in Hin. cbn [get] in Hin.
  destruct (count_occ string_dec selected w =? 0)%nat eqn:E; [discriminate|].
  apply Nat.eqb_neq in E.
  assert (Hw : In w selected).
  { apply (count_occ_In string_dec). lia. }
  subst selected. apply lines_loop_windows in Hw.
  destruct Hw as [[] | [line [_ ->]]].
  rewrite len_window by assumption. lia.
Qed.

Lemma window_length_witness :
  len (window 3 2 true "ACGT") = Z.min 3 (Z.max 0 (len "ACGT" - (2 - 1))).
Proof.
  apply (window_length [] 3 2 true None); lia.
Defined.

(** ** From the reads to the position totals *)

Lemma total_filter_setitem (P : string -> bool) (d : dict Z) (k : string)
    (v : Z) :
  total (filter (fun entry => P (fst entry)) (setitem d k v))
  = total (filter (fun entry => P (fst entry)) d)
    + (if P k then v - match get d k with Some c => c | None => 0 end else 0).
Proof.
  induction d as [|[k0 v0] d IH]; cbn [setitem get filter fst].
  - destruct (P k); unfold total; simpl; lia.
  - destruct (String.eqb k0 k) eqn:E; cbn [filter fst].
    + apply String.eqb_eq in E. subst k0.
      destruct (P k); unfold total; simpl; lia.
    + destruct (P k0); unfold total in *; simpl in *; rewrite IH; lia.
Qed.

Lemma total_filter_count_into (P : string -> bool) (l : list string) :
  forall d,
    total (filter (fun entry => P (fst entry)) (count_into l d))
    = total (filter (fun entry => P (fst entry)) d)
      + Z.of_nat (List.length (filter P l)).
Proof.
  induction l as [|x l IH]; intros d; cbn [count_into filter].
  - cbn [List.length]. lia.
  - rewrite IH. unfold add_count. rewrite total_filter_setitem.
    destruct (P x); cbn [List.length]; lia.
Qed.

Lemma total_filter_permutation (P : string * Z -> bool) (d d' : dict Z) :
  Permutation d d' -> total (filter P d) = total (filter P d').
Proof.
  induction 1 as [|x l l' Hp IH|x y l|l l' l'' H1 IH1 H2 IH2];
    cbn [filter].
  - reflexivity.
  - destruct (P x); unfold total in *; simpl; lia.
  - destruct (P x), (P y); unfold total; simpl; lia.
  - congruence.
Qed.

(** X16: the aggregator applied to the table of the prefix extractor, for
    the same window length, returns that many mappings, and the counts of
    each of them add up to the number of counted windows of full length:
    reads too short for a full window count at no position. *)
Theorem pipeline_totals (fastq : list string) (prefix_len start : Z)
    (rev : bool) (max_line_count : option Z) :
  (forall m, max_line_count = Some m -> 0 <= m) ->
  exists mcp_cons_list,
    build_mcp_cons_dict_list
      (fetch_mcp fastq prefix_len start rev max_line_count) prefix_len
      = Ok mcp_cons_list
    /\ List.length mcp_cons_list = Z.to_nat prefix_len
    /\ Forall
         (fun d =>
            total d
            = Z.of_nat
                (List.length
                   (filter (fun w => negb (len w <? prefix_len))
                      (counted_windows fastq prefix_len start rev
                         max_line_count))))
         mcp_cons_list.
Proof.
  intros Hcap.
  set (ws := counted_windows fastq prefix_len start rev max_line_count).
  assert (Htable : fetch_mcp fastq prefix_len start rev max_line_count
                   = sorted_desc snd Z.ltb (count_into ws [])).
  { unfold fetch_mcp, Counter.
    now rewrite (lines_loop_counted_windows _ _ _ _ _ Hcap). }
  rewrite Htable.
  destruct (count_into_counts ws []) as [Hwf _]; [constructor|].
  pose proof (sorted_desc_perm snd Z.ltb (count_into ws [])) as Hp.
  assert (Hwf' : wf (sorted_desc snd Z.ltb (count_into ws [])))
    by exact (wf_permutation _ _ (Permutation_sym Hp) Hwf).
  destruct (positions_loop_total _ prefix_len Hwf' (range prefix_len) []
              (range_bounds prefix_len) (Forall_nil _)) as [l [Hl [Hlen Hall]]].
  exists l. unfold build_mcp_cons_dict_list. split; [exact Hl|]. split.
  - rewrite Hlen, range_length. reflexivity.
  - eapply Forall_impl; [|exact Hall]. intros d Hd. cbv beta in Hd.
    rewrite Hd. unfold qualifying_total.
    rewrite (total_filter_permutation _ _ _ Hp).
    rewrite (total_filter_count_into (fun w => negb (len w <? prefix_len))).
    unfold total; simpl. lia.
Qed.

Lemma pipeline_totals_witness :
  exists mcp_cons_list,
    build_mcp_cons_dict_list
      (fetch_mcp ["@r1"; "ATGC"; "+"; "IIII"; "@r2"; "GT"; "+"; "II";
                  "@r3"; "ATCC"; "+"; "IIII"] 3 1 false None) 3
      = Ok mcp_cons_list
    /\ List.length mcp_cons_list = Z.to_nat 3.
Proof.
  destruct (pipeline_totals ["@r1"; "ATGC"; "+"; "IIII"; "@r2"; "GT"; "+"; "II";
                             "@r3"; "ATCC"; "+"; "IIII"] 3 1 false None)
    as [l [Hl [Hlen _]]].
  - intros m E. discriminate E.
  - exists l. split; [exact Hl | exact Hlen].
Defined.

(** ** Line terminators *)

Lemma lstrip_by_all (sp : ascii -> bool) (w : list ascii) :
  forallb sp w = true -> forall l, lstrip_by sp (w ++ l) = lstrip_by sp l.
Proof.
  induction w as [|c w IH]; cbn [forallb app lstrip_by]; intros H l.
  - reflexivity.
  - apply andb_true_iff in H. destruct H as [Hc Hw]. rewrite Hc. now apply IH.
Qed.

Lemma lstrip_by_app (sp : ascii -> bool) (l w : list ascii) :
  forallb sp w = true ->
  lstrip_by sp (l ++ w) = if forallb sp l then [] else lstrip_by sp l ++ w.
Proof.
  intros Hw. induction l as [|c l IH]; cbn [app forallb lstrip_by].
  - rewrite <- (app_nil_r w). rewrite (lstrip_by_all sp w Hw). reflexivity.
  - destruct (sp c); cbn [andb]; [exact IH | reflexivity].
Qed.

Lemma lstrip_by_spaces (sp : ascii -> bool) (l : list ascii) :
  forallb sp l = true -> lstrip_by sp l = [].
Proof.
  intros H. rewrite <- (app_nil_r l). now rewrite lstrip_by_all.
Qed.

Lemma list_ascii_of_append (s w : string) :
  list_ascii_of_string (append s w)
  = list_ascii_of_string s ++ list_ascii_of_string w.
Proof.
  induction s as [|c s IH]; cbn [append list_ascii_of_string app];
    [reflexivity | now rewrite IH].
Qed.

(** Stripping ignores white space added at the end. *)
Lemma strip_by_append (sp : ascii -> bool) (s w : string) :
  forallb sp (list_ascii_of_string w) = true ->
  strip_by sp (append s w) = strip_by sp s.
Proof.
  intros Hw. unfold strip_by. rewrite list_ascii_of_append.
  rewrite (lstrip_by_app sp _ _ Hw).
  destruct (forallb sp (list_ascii_of_string s)) eqn:Hs.
  - now rewrite (lstrip_by_spaces sp _ Hs).
  - rewrite rev_app_distr, lstrip_by_all; [reflexivity|].
    rewrite forallb_forall in *. intros c Hc. apply Hw.
    now apply in_rev.
Qed.

Lemma lines_loop_strip (prefix_len start : Z) (rev : bool)
    (max_line_count : option Z) (f : string -> string) :
  (forall line, strip (f line) = strip line) ->
  forall file i selected_lines,
    lines_loop prefix_len start rev max_line_count (map f file) i
      selected_lines
    = lines_loop prefix_len start rev max_line_count file i selected_lines.
Proof.
  intros Hf. induction file as [|line rest IH]; intros i sel;
    cbn [map lines_loop]; [reflexivity|].
  rewrite Hf.
  destruct (match max_line_count with
            | Some m => _
            | None => false
            end); [reflexivity | apply IH].
Qed.

(** X17: the frequency table does not depend on the white space that ends
    the lines: appending the same white space, such as a line feed or a
    carriage return and a line feed, to every line of the file leaves the
    table unchanged. *)
Theorem fetch_mcp_line_ends (fastq : list string) (eol : string)
    (prefix_len start : Z) (rev : bool) (max_line_count : option Z) :
  forallb is_space (list_ascii_of_string eol) = true ->
  fetch_mcp (map (fun line => append line eol) fastq) prefix_len start rev
    max_line_count
  = fetch_mcp fastq prefix_len start rev max_line_count.
Proof.
  intros Heol. unfold fetch_mcp.
  rewrite (lines_loop_strip prefix_len start rev max_line_count
             (fun line => append line eol)); [reflexivity|].
  intros line. unfold strip. now apply strip_by_append.
Qed.

Lemma fetch_mcp_line_ends_witness :
  fetch_mcp (map (fun line => append line (String "013" (String "010" EmptyString)))
               ["@r1"; "ATGC"; "+"; "IIII"]) 2 1 false None
  = fetch_mcp ["@r1"; "ATGC"; "+"; "IIII"] 2 1 false None.
Proof.
  apply fetch_mcp_line_ends. reflexivity.
Defined.
